(** * ncm-cli report renderer: [lib/report/util.js]

    A shallow embedding of the module that prints a dependency-risk report:
    [moduleSort], [moduleList], [shortVulnerabilityList], [severityMeter],
    [severityTextLabel] and [outputReport].

    - JavaScript strings are sequences of UTF-16 code units ([jsstring]).
    - [console.log] is a writer: every call appends one line.
    - A thrown [RangeError] / [TypeError] ends the call and keeps the lines
      that were already written.
    - Arrays that are sorted in place live in a store indexed by references. *)

From Stdlib Require Import ZArith NArith List Ascii String DecimalString Lia.
From Stdlib Require Import DecimalPos DecimalZ.
From Stdlib Require Import Sorting.Permutation Sorting.Sorted.
From stdpp Require Import base decidable option list functions gmap sets.

#[local] Set Warnings "-clear-no-such-hyp".
Local Open Scope Z_scope.

(** ** JavaScript strings *)

(** A string value: its UTF-16 code units, so that [length] is [.length]. *)
Definition jsstring := list N.

(** An ASCII literal of the source. *)
Definition u (s : string) : jsstring := map N_of_ascii (list_ascii_of_string s).

(** The non-ASCII glyphs of the source, each a single code unit. *)
Definition CHECK : jsstring := [10003%N].          (* U+2713 *)
Definition ELLIPSIS : jsstring := [8230%N].        (* U+2026 *)
Definition BOX_H : jsstring := [9472%N].           (* U+2500 *)
Definition BOX_V : jsstring := [9474%N].           (* U+2502 *)
Definition BOX_DR : jsstring := [9484%N].          (* U+250C *)
Definition BOX_DL : jsstring := [9488%N].          (* U+2510 *)
Definition BOX_UR : jsstring := [9492%N].          (* U+2514 *)
Definition BOX_UL : jsstring := [9496%N].          (* U+2518 *)
Definition BOX_VR : jsstring := [9500%N].          (* U+251C *)
Definition BOX_VL : jsstring := [9508%N].          (* U+2524 *)
Definition BOX_DH : jsstring := [9516%N].          (* U+252C *)
Definition BOX_UH : jsstring := [9524%N].          (* U+2534 *)
Definition BOX_VH : jsstring := [9532%N].          (* U+253C *)

(** [a < b] on two strings: code unit by code unit, a proper prefix first. *)
Fixpoint str_lt (a b : jsstring) : bool :=
  match a, b with
  | _, [] => false
  | [], _ :: _ => true
  | x :: a', y :: b' =>
      if (x <? y)%N then true
      else if (y <? x)%N then false
      else str_lt a' b'
  end.

(** The lexicographic order on strings, stated on its own. *)
Inductive lex_le : jsstring -> jsstring -> Prop :=
| lex_le_nil b : lex_le [] b
| lex_le_lt x y a b : (x < y)%N -> lex_le (x :: a) (y :: b)
| lex_le_eq x a b : lex_le a b -> lex_le (x :: a) (x :: b).

(** [`${n}`] for a count. *)
Definition dec (n : nat) : jsstring := u (NilEmpty.string_of_uint (Nat.to_uint n)).

(** [`${z}`] for an integer. *)
Definition decZ (z : Z) : jsstring := u (NilZero.string_of_int (Z.to_int z)).

(** [s.repeat(n)] for a count known to be non-negative. *)
Definition str_repeat (s : jsstring) (n : nat) : jsstring := concat (replicate n s).

(** ** Exceptions and console output *)

Inductive exn := RangeError | TypeError | Error.

(** A computation that returns or throws. *)
Definition result (A : Type) : Type := exn + A.

Definition rbind {A B} (m : result A) (f : A -> result B) : result B :=
  match m with
  | inl e => inl e
  | inr a => f a
  end.

(** The lines written by [console.log] so far, and how the call ended. *)
Definition io (A : Type) : Type := (list jsstring * result A)%type.

Definition io_ret {A} (a : A) : io A := ([], inr a).

Definition io_bind {A B} (m : io A) (f : A -> io B) : io B :=
  match m with
  | (out, inl e) => (out, inl e)
  | (out, inr a) => let '(out', r) := f a in (out ++ out', r)
  end.

(** [L = console.log]. *)
Definition L (line : jsstring) : io unit := ([line], inr tt).

(** An expression evaluated inside a printing function. *)
Definition io_lift {A} (m : result A) : io A := ([], m).

Declare Scope js_scope.
Delimit Scope js_scope with js.
Notation "'let*' x := m 'in' k" := (rbind m (fun x => k))
  (at level 10, x name, m at level 100, k at level 200, only parsing) : js_scope.
Notation "'let!' x := m 'in' k" := (io_bind m (fun x => k))
  (at level 10, x name, m at level 100, k at level 200, only parsing) : js_scope.

(** [s.repeat(count)]: a negative count throws. *)
Definition String_repeat (s : jsstring) (count : Z) : result jsstring :=
  if count <? 0 then inl RangeError else inr (str_repeat s (Z.to_nat count)).

(** ** Data model *)

Inductive Severity := NONE | LOW | MEDIUM | HIGH | CRITICAL.

#[global] Instance Severity_eq_dec : EqDecision Severity.
Proof. solve_decision. Defined.

Record License := { title : jsstring; pass : bool }.

Record Failure := { group : jsstring; severity : Severity }.

(** One record of the report. [license] and [failures] may be missing. *)
Record PackageResult := {
  name : jsstring;
  version : jsstring;
  published : bool;
  license : option License;
  failures : option (list Failure);
  maxSeverity : Z
}.

Definition SEVERITY_RMAP : list Severity := [NONE; LOW; MEDIUM; HIGH; CRITICAL].

(** Column widths: Module Name, Risk Score, License, Security. *)
Definition W (i : nat) : Z := nth i [40; 12; 23; 15] 0.

(** ** Sorting *)

(** The comparator handed to [report.sort]; [None] is [undefined]. *)
Definition moduleSort_compare (a b : PackageResult) : option Z :=
  if maxSeverity a >? maxSeverity b then Some (-1)
  else if maxSeverity b >? maxSeverity a then Some 1
  else if maxSeverity a =? maxSeverity b then
    if str_lt (name a) (name b) then Some (-1)
    else if str_lt (name b) (name a) then Some 1
    else None
  else None.

Section ArraySort.
Context {A : Type} (comparefn : A -> A -> option Z).

(** ECMAScript SortCompare: an [undefined] result counts as [+0]. *)
Definition SortCompare (x y : A) : Z :=
  match comparefn x y with
  | Some v => v
  | None => 0
  end.

(** [x] moves behind every element it compares greater than. *)
Fixpoint sort_insert (x : A) (l : list A) : list A :=
  match l with
  | [] => [x]
  | y :: l' => if 0 <? SortCompare x y then y :: sort_insert x l' else x :: l
  end.

(** [Array.prototype.sort], as a stable sort (ECMAScript 2019). *)
Definition Array_sort (l : list A) : list A := foldr sort_insert [] l.

End ArraySort.

(** [x] may stand before [y] in a sorted array. *)
Definition in_order {A} (comparefn : A -> A -> option Z) (x y : A) : Prop :=
  SortCompare comparefn x y <= 0.

(** References to arrays, and the store that holds their elements. *)
Abbreviation ref := nat (only parsing).
Abbreviation heap := (ref -> list PackageResult) (only parsing).

(** [moduleSort]: sorts the array behind [report] and returns [report]. *)
Definition moduleSort (h : heap) (report : ref) : heap * ref :=
  (<[report := Array_sort moduleSort_compare (h report)]> h, report).

(** ** Terminal styling *)

(** The palette of [../ncm-style]; only the names are used here. *)
Module COLORS.
Inductive t := green | red | orange | yellow | light1 | base.
End COLORS.

(** What the terminal needs to switch a colour on and off. At chalk's
    level 0 (no colour support) both sequences are empty. *)
Record Terminal := {
  sgr_open : COLORS.t -> jsstring;
  sgr_close : COLORS.t -> jsstring
}.

(** [chalk`{colour text}`]: an empty text stays empty. The texts painted
    in this module hold no line break and no escape sequence. *)
Definition chalk (t : Terminal) (c : COLORS.t) (text : jsstring) : jsstring :=
  match text with
  | [] => []
  | _ => sgr_open t c ++ text ++ sgr_close t c
  end.

Definition SEVERITY_COLOR (s : Severity) : COLORS.t :=
  match s with
  | CRITICAL => COLORS.red
  | HIGH => COLORS.orange
  | MEDIUM => COLORS.yellow
  | LOW => COLORS.light1
  | NONE => COLORS.base
  end.

(** [SEVERITY_RMAP.indexOf(severity)]. *)
Definition indexOf (s : Severity) : nat :=
  match s with
  | NONE => 0
  | LOW => 1
  | MEDIUM => 2
  | HIGH => 3
  | CRITICAL => 4
  end.

(** [severityMeter]: the two painted parts, joined into one string. *)
Definition severityMeter (t : Terminal) (s : Severity) : jsstring :=
  let risk := indexOf s in
  chalk t (SEVERITY_COLOR s) (str_repeat (u "|") risk)
  ++ chalk t COLORS.base (str_repeat (u "|") (4 - risk)).

Definition severityLabel (s : Severity) : jsstring :=
  match s with
  | CRITICAL => u "Crit"
  | HIGH => u "High"
  | MEDIUM => u "Med "
  | LOW => u "Low "
  | NONE => u "None"
  end.

Definition severityTextLabel (t : Terminal) (s : Severity) : jsstring :=
  let color := match s with NONE => COLORS.base | _ => COLORS.light1 end in
  chalk t color (severityLabel s).

(** ** Pieces of a table row *)

(** [s[i]]: a one-unit string, or [undefined]. *)
Definition charAt (s : jsstring) (i : nat) : option jsstring :=
  match s !! i with
  | Some c => Some [c]
  | None => None
  end.

(** [a + b + label] where [a] and [b] come from indexing a string:
    [undefined] prints as such next to a string, and two of them add up
    to [NaN]. *)
Definition plus3 (a b : option jsstring) (label : jsstring) : jsstring :=
  match a, b with
  | Some x, Some y => x ++ y ++ label
  | Some x, None => x ++ u "undefined" ++ label
  | None, Some y => u "undefined" ++ y ++ label
  | None, None => u "NaN" ++ label
  end.

(** [SEVERITY_RMAP[maxSeverity].toUpperCase()]: throws out of range. *)
Definition severityOf (maxSev : Z) : result Severity :=
  match (if maxSev <? 0 then None else SEVERITY_RMAP !! Z.to_nat maxSev) with
  | Some s => inr s
  | None => inl TypeError
  end.

(** The risk badge: lines 127 to 129. *)
Definition riskBadge (t : Terminal) (s : Severity) : jsstring :=
  plus3 (charAt (severityMeter t s) 0) (charAt (severityMeter t s) 1)
        (severityTextLabel t s).

(** The name shown in the first column, [mod] in the source: lines 87
    and 88. *)
Definition moduleName (pkg : PackageResult) : jsstring :=
  let mod_ := name pkg ++ u " @ " ++ version pkg in
  if W 0 <? Z.of_nat (length mod_)
  then take (Z.to_nat (W 0 - 14)) (name pkg) ++ u "... @ " ++ version pkg
  else mod_.

(** U+2028 and U+2029, the line and the paragraph separator. *)
Definition is_separator (c : N) : bool := ((c =? 8232) || (c =? 8233))%N.

(** A value put into a chalk template outside any style. The parser of
    the template hands every code unit on except the two separators,
    which match none of its patterns and are left out. Blanks, digits and
    the glyphs of this module pass unchanged. *)
Definition interpolate (s : jsstring) : jsstring :=
  List.filter (fun c => negb (is_separator c)) s.

(** The module label with its left and right bar. The padding counts
    every code unit of the label, also those the template leaves out. *)
Definition labelCell (t : Terminal) (mod_ : jsstring) : result jsstring :=
  (let* pad := String_repeat (u " ") (W 0 - Z.of_nat (length mod_)) in
   inr (chalk t COLORS.light1 BOX_V ++ u " " ++ interpolate mod_ ++ u " " ++ pad
        ++ chalk t COLORS.light1 BOX_V ++ u " "))%js.

(** [title.split(':')]. *)
Fixpoint split_colon (s : jsstring) : list jsstring :=
  match s with
  | [] => [[]]
  | c :: s' =>
      if (c =? 58)%N then [] :: split_colon s'
      else match split_colon s' with
           | [] => [[c]]
           | w :: ws => (c :: w) :: ws
           end
  end.

(** White space and line terminators, as [trim] sees them. *)
Definition is_space (c : N) : bool :=
  ((9 <=? c) && (c <=? 13) || (c =? 32) || (c =? 160) || (c =? 5760)
   || (8192 <=? c) && (c <=? 8202) || (c =? 8232) || (c =? 8233)
   || (c =? 8239) || (c =? 8287) || (c =? 12288) || (c =? 65279))%N.

Fixpoint trimStart (s : jsstring) : jsstring :=
  match s with
  | c :: s' => if is_space c then trimStart s' else s
  | [] => []
  end.

Definition trim (s : jsstring) : jsstring := rev (trimStart (rev (trimStart s))).

(** The licence text of a row: lines 97 to 101. *)
Definition licenseText (ttl : jsstring) : jsstring :=
  let chunked := split_colon ttl in
  let license := trim (List.last chunked []) in
  if W 2 <? Z.of_nat (length license) + 3
  then take (Z.to_nat (W 2 - 4)) license ++ ELLIPSIS
  else license.

(** One step of the loop over [pkg.failures]: lines 110 to 115.
    [vulns] is indexed LOW, MEDIUM, HIGH, CRITICAL. *)
Definition countFailure (vulns : list nat) (f : Failure) : list nat :=
  if decide (group f = u "security") then
    match severity f with
    | CRITICAL => alter S 3%nat vulns
    | HIGH => alter S 2%nat vulns
    | MEDIUM => alter S 1%nat vulns
    | LOW => alter S 0%nat vulns
    | NONE => vulns
    end
  else vulns.

Definition countFailures (fs : list Failure) : list nat :=
  foldl countFailure [0; 0; 0; 0]%nat fs.

(** A count and its letter, painted, with the blank that follows. *)
Definition badge (t : Terminal) (c : COLORS.t) (n : nat) (letter : string) : jsstring :=
  chalk t c (dec n ++ u letter) ++ u " ".

(** The array [securityBadges]: lines 117 to 124. *)
Definition securityBadges (t : Terminal) (vulns : list nat) : list jsstring :=
  [ if (foldl Nat.add 0 vulns =? 0)%nat
    then chalk t COLORS.green CHECK ++ u " 0"
    else chalk t COLORS.red (u "X") ++ u " ";
    if (0 <? vulns !!! 3%nat)%nat then badge t COLORS.red (vulns !!! 3%nat) "C" else [];
    if (0 <? vulns !!! 2%nat)%nat then badge t COLORS.orange (vulns !!! 2%nat) "H" else [];
    if (0 <? vulns !!! 1%nat)%nat then badge t COLORS.yellow (vulns !!! 1%nat) "M" else [];
    if (0 <? vulns !!! 0%nat)%nat then badge t COLORS.light1 (vulns !!! 0%nat) "L" else [] ].

(** [x !== ''] *)
Definition nonEmpty (x : jsstring) : bool :=
  match x with
  | [] => false
  | _ => true
  end.

(** ** Table rows *)

Definition bar (t : Terminal) : jsstring := chalk t COLORS.light1 BOX_V.

(** Risk badge with right bar. *)
Definition riskCell (t : Terminal) (s : Severity) : result jsstring :=
  (let* pad := String_repeat (u " ") (W 1 - 10) in
   inr (riskBadge t s ++ pad ++ bar t ++ u " "))%js.

(** Licence badge with right bar. *)
Definition licenseCell (t : Terminal) (lic : License) : result jsstring :=
  (let license_ := licenseText (title lic) in
   let licenseBadge :=
     if pass lic then chalk t COLORS.green CHECK else chalk t COLORS.red (u "X") in
   let* pad := String_repeat (u " ") (W 2 - Z.of_nat (length license_) - 3) in
   inr (licenseBadge ++ u " " ++ interpolate license_ ++ pad ++ bar t ++ u " "))%js.

(** Security badge with right bar. *)
Definition securityCell (t : Terminal) (fs : list Failure) : result jsstring :=
  (let badges := securityBadges t (countFailures fs) in
   let* pad := String_repeat (u " ")
                 (W 3 - 2 - Z.of_nat (length (List.filter nonEmpty badges)) * 2) in
   inr (concat badges ++ pad ++ bar t))%js.

(** The three blank cells of a record that is not published. *)
Definition blankCells (t : Terminal) : result jsstring :=
  (let* pad1 := String_repeat (u " ") (W 1 - 1) in
   let* pad2 := String_repeat (u " ") (W 2) in
   let* pad3 := String_repeat (u " ") (W 3) in
   inr (pad1 ++ bar t ++ pad2 ++ bar t ++ pad3 ++ bar t))%js.

(** A missing field that is dereferenced throws. *)
Definition required {A} (field : option A) : result A :=
  match field with
  | Some a => inr a
  | None => inl TypeError
  end.

(** The line printed for one record: lines 86 to 160. *)
Definition moduleRow (t : Terminal) (pkg : PackageResult) : result jsstring :=
  (let mod_ := moduleName pkg in
   if published pkg then
     let* lic := required (license pkg) in
     let* fs := required (failures pkg) in
     let* sev := severityOf (maxSeverity pkg) in
     let* c0 := labelCell t mod_ in
     let* c1 := riskCell t sev in
     let* c2 := licenseCell t lic in
     let* c3 := securityCell t fs in
     inr (c0 ++ c1 ++ c2 ++ c3)
   else
     let* c0 := labelCell t mod_ in
     let* rest := blankCells t in
     inr (c0 ++ rest))%js.

(** A horizontal rule with the given corner and junction glyphs. *)
Definition rule (t : Terminal) (l m r : jsstring) : jsstring :=
  chalk t COLORS.light1
    (l ++ BOX_H ++ BOX_H ++ str_repeat BOX_H (Z.to_nat (W 0))
     ++ m ++ str_repeat BOX_H (Z.to_nat (W 1))
     ++ m ++ str_repeat BOX_H (Z.to_nat (W 2))
     ++ m ++ str_repeat BOX_H (Z.to_nat (W 3)) ++ r).

Definition headerLine (t : Terminal) : jsstring :=
  chalk t COLORS.light1
    (u "  Module Name" ++ str_repeat (u " ") (Z.to_nat (W 0 - 9))
     ++ u "Risk" ++ str_repeat (u " ") (Z.to_nat (W 1 - 3))
     ++ u "License" ++ str_repeat (u " ") (Z.to_nat (W 2 - 6))
     ++ u "Security").

Definition topBorder (t : Terminal) : jsstring := rule t BOX_DR BOX_DH BOX_DL.
Definition bottomBorder (t : Terminal) : jsstring := rule t BOX_UR BOX_UH BOX_UL.
Definition divider (t : Terminal) : jsstring := rule t BOX_VR BOX_VH BOX_VL.

(** The callback of [report.forEach]; [len] is [report.length]. *)
Definition renderPackage (t : Terminal) (dividers : bool) (len : nat)
    (pkg : PackageResult) (ind : nat) : io unit :=
  (let! line := io_lift (moduleRow t pkg) in
   let! _ := L line in
   if Z.of_nat ind =? Z.of_nat len - 1 then L (bottomBorder t)
   else if dividers then L (divider t)
   else io_ret tt)%js.

(** [array.forEach(callback)], from index [ind] on. *)
Fixpoint forEach {A} (callback : A -> nat -> io unit) (l : list A) (ind : nat) : io unit :=
  match l with
  | [] => io_ret tt
  | x :: l' => (let! _ := callback x ind in forEach callback l' (S ind))%js
  end.

(** [moduleList]: sorts the caller's array, then prints the table. *)
Definition moduleList (t : Terminal) (h : heap) (report : ref) (dividers : bool)
    : heap * io unit :=
  let '(h1, report1) := moduleSort h report in
  let rows := h1 report1 in
  (h1,
   (let! _ := L (headerLine t) in
    let! _ := L (topBorder t) in
    forEach (renderPackage t dividers (length rows)) rows 0%nat)%js).

(** ** Vulnerability summary *)

(** The object [netSecurity]. *)
Record NetSecurity := {
  nLOW : nat;
  nMEDIUM : nat;
  nHIGH : nat;
  nCRITICAL : nat;
  AFFECTED : gset jsstring
}.

Definition netSecurity0 : NetSecurity :=
  {| nLOW := 0; nMEDIUM := 0; nHIGH := 0; nCRITICAL := 0; AFFECTED := ∅ |}.

(** [netSecurity[severity]++]. For [NONE] the object gains a property of
    that name which nothing reads; the four counters stay as they are. *)
Definition increment (ns : NetSecurity) (s : Severity) : NetSecurity :=
  match s with
  | LOW => {| nLOW := S (nLOW ns); nMEDIUM := nMEDIUM ns; nHIGH := nHIGH ns;
              nCRITICAL := nCRITICAL ns; AFFECTED := AFFECTED ns |}
  | MEDIUM => {| nLOW := nLOW ns; nMEDIUM := S (nMEDIUM ns); nHIGH := nHIGH ns;
                 nCRITICAL := nCRITICAL ns; AFFECTED := AFFECTED ns |}
  | HIGH => {| nLOW := nLOW ns; nMEDIUM := nMEDIUM ns; nHIGH := S (nHIGH ns);
               nCRITICAL := nCRITICAL ns; AFFECTED := AFFECTED ns |}
  | CRITICAL => {| nLOW := nLOW ns; nMEDIUM := nMEDIUM ns; nHIGH := nHIGH ns;
                   nCRITICAL := S (nCRITICAL ns); AFFECTED := AFFECTED ns |}
  | NONE => ns
  end.

(** [netSecurity.AFFECTED.add(name)]. *)
Definition addAffected (ns : NetSecurity) (n : jsstring) : NetSecurity :=
  {| nLOW := nLOW ns; nMEDIUM := nMEDIUM ns; nHIGH := nHIGH ns;
     nCRITICAL := nCRITICAL ns; AFFECTED := {[ n ]} ∪ AFFECTED ns |}.

(** The body of the inner loop: lines 182 to 185. *)
Definition tallyFailure (pkgName : jsstring) (ns : NetSecurity) (f : Failure)
    : NetSecurity :=
  if decide (group f = u "security")
  then addAffected (increment ns (severity f)) pkgName
  else ns.

(** The inner loop, over [pkg.failures || []]. *)
Definition tallyPackage (ns : NetSecurity) (pkg : PackageResult) : NetSecurity :=
  foldl (tallyFailure (name pkg)) ns (default [] (failures pkg)).

(** The outer loop: lines 180 to 187. *)
Definition tally (report : list PackageResult) : NetSecurity :=
  foldl tallyPackage netSecurity0 report.

Definition vulnerabilityCount (ns : NetSecurity) : nat :=
  (nCRITICAL ns + nHIGH ns + nMEDIUM ns + nLOW ns)%nat.

(** The headline of the summary. *)
Definition headline (t : Terminal) (total affected : nat) : jsstring :=
  let securityBadge :=
    if (0 <? total)%nat then chalk t COLORS.red (u "!") else chalk t COLORS.green CHECK in
  if (0 <? affected)%nat
  then u "  " ++ securityBadge ++ u " " ++ dec total
       ++ u " security vulnerabilities found across " ++ dec affected ++ u " modules"
  else u "  " ++ securityBadge ++ u " " ++ dec total
       ++ u " security vulnerabilities found".

(** One of the four lines that follow the headline. *)
Definition severityLine (t : Terminal) (c : COLORS.t) (letter : string) (n : nat)
    (what : string) : jsstring :=
  u "    " ++ chalk t c (u letter) ++ u " " ++ dec n ++ u what.

(** [shortVulnerabilityList]: reads the records, prints five lines. *)
Definition shortVulnerabilityList (t : Terminal) (report : list PackageResult) : io unit :=
  (let ns := tally report in
   let! _ := L (headline t (vulnerabilityCount ns) (size (AFFECTED ns))) in
   let! _ := L (severityLine t COLORS.red "C" (nCRITICAL ns) " critical severity") in
   let! _ := L (severityLine t COLORS.orange "H" (nHIGH ns) " high severity") in
   let! _ := L (severityLine t COLORS.yellow "M" (nMEDIUM ns) " medium severity") in
   L (severityLine t COLORS.light1 "L" (nLOW ns) " low severity"))%js.

(** ** Writing the report to a file *)

(** What a call leaves behind, in order. *)
Inductive Event :=
| FileWritten (path data : jsstring)
| Printed (line : jsstring)
| ErrorReported (signal : jsstring).

(** How the promise of an [async] function settles. *)
Inductive Settled := Resolved | Rejected (e : exn).

(** The host of a call: the process, the clock, the file system and the
    library functions, for a report value of any type [R]. [cwd] is what
    [process.cwd()] does: it throws when the working directory is gone. *)
Record Host (R : Type) := {
  cwd : result jsstring;
  now : Z;
  JSON_stringify : R -> result jsstring;
  path_join : jsstring -> jsstring -> jsstring;
  fs_writeFile : jsstring -> jsstring -> result unit;
  boxbox : jsstring -> jsstring -> COLORS.t -> jsstring
}.
Arguments cwd {R}.
Arguments now {R}.
Arguments JSON_stringify {R}.
Arguments path_join {R}.
Arguments fs_writeFile {R}.
Arguments boxbox {R}.

(** Modelled from the spec: [handleError] of [../util] is not part of the
    sources at hand. It reports the tool-level error it is given and hands
    control back to its caller. *)
Definition handleError (signal : jsstring) : list Event := [ErrorReported signal].

(** [`ncm-score-report-${timestamp}.json`] *)
Definition reportFileName (timestamp : Z) : jsstring :=
  u "ncm-score-report-" ++ decZ timestamp ++ u ".json".

(** The [try] block of [outputReport]: lines 67 to 72. *)
Definition outputReport_try {R} (host : Host R) (report : R) (dir : jsstring)
    : list Event * result unit :=
  match JSON_stringify host report with
  | inl e => ([], inl e)
  | inr json =>
      let timestamp := now host in
      let reportFile := path_join host dir (reportFileName timestamp) in
      match fs_writeFile host reportFile json with
      | inl e => ([], inl e)
      | inr _ =>
          ([FileWritten reportFile json;
            Printed (boxbox host CHECK
                       (u "Report successfully written to: " ++ reportFile)
                       COLORS.green)],
           inr tt)
      end
  end.

(** The directory written to: line 64, before the [try] block. *)
Definition outputReport_dir {R} (host : Host R) (dir : option jsstring)
    : result jsstring :=
  match dir with
  | Some d => inr d
  | None => cwd host
  end.

(** [outputReport]. [dir] is [Some d] for a string argument and [None]
    for anything else, a left-out argument included. What is thrown
    outside the [try] block rejects the promise. *)
Definition outputReport {R} (host : Host R) (report : R) (dir : option jsstring)
    : list Event * Settled :=
  match outputReport_dir host dir with
  | inl e => ([], Rejected e)
  | inr dir_ =>
      match outputReport_try host report dir_ with
      | (events, inr _) => (events, Resolved)
      | (events, inl _) =>
          (events ++ handleError (u "Tools::UnableToFormatOutput"), Resolved)
      end
  end.

(** ** The figures a report gives rise to *)

(** [group === 'security'] *)
Definition isSecurity (f : Failure) : bool := bool_decide (group f = u "security").

(** How many security failures of severity [s] a list of failures holds. *)
Definition countIn (s : Severity) (fs : list Failure) : nat :=
  length (List.filter (fun f => bool_decide (severity f = s)) (List.filter isSecurity fs)).

(** Every security failure of the report, unpublished records included. *)
Definition securityFailures (report : list PackageResult) : list Failure :=
  flat_map (fun pkg => List.filter isSecurity (default [] (failures pkg))) report.

Definition severityCount (s : Severity) (report : list PackageResult) : nat :=
  length (List.filter (fun f => bool_decide (severity f = s)) (securityFailures report)).

Definition hasSecurityFailure (pkg : PackageResult) : bool :=
  existsb isSecurity (default [] (failures pkg)).

(** The distinct names of the records with a security failure. *)
Definition affectedModules (report : list PackageResult) : list jsstring :=
  remove_dups (map name (List.filter hasSecurityFailure report)).

(** The five lines of a summary with the given total. *)
Definition summaryLines (t : Terminal) (total : nat) (report : list PackageResult)
    : list jsstring :=
  [ headline t total (length (affectedModules report));
    severityLine t COLORS.red "C" (severityCount CRITICAL report) " critical severity";
    severityLine t COLORS.orange "H" (severityCount HIGH report) " high severity";
    severityLine t COLORS.yellow "M" (severityCount MEDIUM report) " medium severity";
    severityLine t COLORS.light1 "L" (severityCount LOW report) " low severity" ].

(** The summary whose total is the number of all security failures. *)
Definition summaryOfAllFailures (t : Terminal) (report : list PackageResult) : io unit :=
  (summaryLines t (length (securityFailures report)) report, inr tt).

(** The security failures that fall into one of the four buckets. *)
Definition bucketed (report : list PackageResult) : list Failure :=
  List.filter (fun f => negb (bool_decide (severity f = NONE))) (securityFailures report).

(** ** The cells a row is made of *)

(** The buckets of the Security cell, most severe first. *)
Definition buckets (fs : list Failure) : list (COLORS.t * nat * string) :=
  [ (COLORS.red, countIn CRITICAL fs, "C"%string);
    (COLORS.orange, countIn HIGH fs, "H"%string);
    (COLORS.yellow, countIn MEDIUM fs, "M"%string);
    (COLORS.light1, countIn LOW fs, "L"%string) ].

(** One badge for every bucket that is not empty. *)
Definition shownBadges (t : Terminal) (fs : list Failure) : list jsstring :=
  map (fun b => badge t b.1.1 b.1.2 b.2)
      (List.filter (fun b => (0 <? b.1.2)%nat) (buckets fs)).

(** The glyph that opens the Security cell. *)
Definition aggregateGlyph (t : Terminal) (fs : list Failure) : jsstring :=
  if (countIn CRITICAL fs + countIn HIGH fs + countIn MEDIUM fs + countIn LOW fs =? 0)%nat
  then chalk t COLORS.green CHECK ++ u " 0"
  else chalk t COLORS.red (u "X") ++ u " ".

(** [n] blanks and the bar that closes the cell. *)
Definition blankCell (t : Terminal) (n : nat) : jsstring :=
  str_repeat (u " ") n ++ bar t.

(** What follows the line of record [ind] out of [len]. *)
Definition closingRule (t : Terminal) (dividers : bool) (len ind : nat) : list jsstring :=
  if Z.of_nat ind =? Z.of_nat len - 1 then [bottomBorder t]
  else if dividers then [divider t]
  else [].

(** ** Sample data *)

(** A terminal without colour support. *)
Definition plain : Terminal := {| sgr_open := fun _ => []; sgr_close := fun _ => [] |}.

(** A terminal that brackets painted text with escape sequences; the
    colour is told by one digit. *)
Definition ansi : Terminal :=
  {| sgr_open := fun c =>
       [27%N] ++ u "[3" ++ dec (match c with
                                | COLORS.green => 2 | COLORS.red => 1
                                | COLORS.orange => 3 | COLORS.yellow => 3
                                | COLORS.light1 => 7 | COLORS.base => 0
                                end) ++ u "m";
     sgr_close := fun _ => [27%N] ++ u "[39m" |}.

Definition security (s : Severity) : Failure := {| group := u "security"; severity := s |}.

Definition MIT : License := {| title := u "SPDX:MIT"; pass := true |}.

Definition P1 : PackageResult :=
  {| name := u "P1"; version := u "1.0.0"; published := true; license := Some MIT;
     failures := Some [security HIGH; security LOW; security HIGH];
     maxSeverity := 3 |}.

Definition P2 : PackageResult :=
  {| name := u "P2"; version := u "2.1.0"; published := true; license := Some MIT;
     failures := Some [security CRITICAL];
     maxSeverity := 4 |}.

(** A security failure of severity NONE. *)
Definition P3 : PackageResult :=
  {| name := u "P3"; version := u "0.0.1"; published := true; license := Some MIT;
     failures := Some [security NONE];
     maxSeverity := 0 |}.

(** A record without registry metadata. *)
Definition P4 : PackageResult :=
  {| name := u "P4"; version := u "0.3.0"; published := false; license := None;
     failures := None; maxSeverity := 2 |}.

(** A name of thirty characters and a pre-release version of twelve. *)
Definition P5 : PackageResult :=
  {| name := u "a-rather-long-package-name-xyz"; version := u "1.0.0-beta.1";
     published := false; license := None; failures := None; maxSeverity := 0 |}.

(** The same name with a short version. *)
Definition P6 : PackageResult :=
  {| name := u "a-rather-long-package-name-xyz"; version := u "1.2.3-rc";
     published := true; license := Some MIT; failures := Some [];
     maxSeverity := 0 |}.

(** A store with one array. *)
Definition store (l : list PackageResult) : heap := fun _ => l.

(** A host whose calls all succeed. *)
Definition host_ok : Host unit :=
  {| cwd := inr (u "/home/user/project");
     now := 1562000000000;
     JSON_stringify := fun _ => inr (u "[]");
     path_join := fun d f => d ++ u "/" ++ f;
     fs_writeFile := fun _ _ => inr tt;
     boxbox := fun glyph text _ => glyph ++ u " " ++ text |}.

(** A host whose disk is full. *)
Definition host_full : Host unit :=
  {| cwd := inr (u "/home/user/project");
     now := 1562000000000;
     JSON_stringify := fun _ => inr (u "[]");
     path_join := fun d f => d ++ u "/" ++ f;
     fs_writeFile := fun _ _ => inl Error;
     boxbox := fun glyph text _ => glyph ++ u " " ++ text |}.

(** A host whose working directory has been removed. *)
Definition host_nocwd : Host unit :=
  {| cwd := inl Error;
     now := 1562000000000;
     JSON_stringify := fun _ => inr (u "[]");
     path_join := fun d f => d ++ u "/" ++ f;
     fs_writeFile := fun _ _ => inr tt;
     boxbox := fun glyph text _ => glyph ++ u " " ++ text |}.

(** A published record with the long name and the long version. *)
Definition P8 : PackageResult :=
  {| name := u "a-rather-long-package-name-xyz"; version := u "1.0.0-beta.1";
     published := true; license := Some MIT;
     failures := Some [security HIGH; security LOW; security HIGH];
     maxSeverity := 3 |}.

(** A record whose name holds a line separator. *)
Definition P9 : PackageResult :=
  {| name := u "odd" ++ [8232%N] ++ u "name"; version := u "1.0.0";
     published := false; license := None; failures := None; maxSeverity := 0 |}.

(** How many code units of a string the template leaves out. *)
Definition separators (s : jsstring) : nat := length (List.filter is_separator s).

(** A short name with a long version. *)
Definition P7 : PackageResult :=
  {| name := u "left-pad"; version := u "0.0.0-nightly.20190701.commit.abcdef1";
     published := false; license := None; failures := None; maxSeverity := 0 |}.

(** A failure of another group. *)
Definition compliance (s : Severity) : Failure :=
  {| group := u "compliance"; severity := s |}.

(** ** Further pieces of the library and of the table *)

(** [array.join(sep)]. *)
Fixpoint Array_join (sep : jsstring) (l : list jsstring) : jsstring :=
  match l with
  | [] => []
  | [x] => x
  | x :: l' => x ++ sep ++ Array_join sep l'
  end.

(** The lines that follow the top border when the rows from index [ind]
    on render as [lines]. *)
Fixpoint tableBody (t : Terminal) (dividers : bool) (len ind : nat)
    (lines : list jsstring) : list jsstring :=
  match lines with
  | [] => []
  | line :: lines' =>
      line :: closingRule t dividers len ind ++ tableBody t dividers len (S ind) lines'
  end.

(** The text of a row that is rendered. *)
Definition rowText (t : Terminal) (pkg : PackageResult) : jsstring :=
  match moduleRow t pkg with
  | inr line => line
  | inl _ => []
  end.

(** * Properties *)

(** ** Strings *)

Lemma str_lt_false_le (a b : jsstring) : str_lt b a = false -> lex_le a b.
Proof.
  revert b. induction a as [|x a IH]; intros b H.
  - constructor.
  - destruct b as [|y b]; [discriminate H|].
    simpl in H.
    destruct (N.ltb_spec y x) as [Hyx|Hyx]; [discriminate H|].
    destruct (N.ltb_spec x y) as [Hxy|Hxy].
    + now apply lex_le_lt.
    + assert (x = y) by lia. subst y. apply lex_le_eq. now apply IH.
Qed.

Lemma str_lt_true_le (a b : jsstring) : str_lt a b = true -> lex_le a b.
Proof.
  revert b. induction a as [|x a IH]; intros b H.
  - constructor.
  - destruct b as [|y b]; [discriminate H|].
    simpl in H.
    destruct (N.ltb_spec x y) as [Hxy|Hxy]; [now apply lex_le_lt|].
    destruct (N.ltb_spec y x) as [Hyx|Hyx]; [discriminate H|].
    assert (x = y) by lia. subst y. apply lex_le_eq. now apply IH.
Qed.

Lemma lex_le_str_lt (a b : jsstring) : lex_le a b -> str_lt b a = false.
Proof.
  induction 1 as [b|x y a b Hxy|x a b _ IH]; simpl.
  - now destruct b.
  - destruct (N.ltb_spec y x); [lia|].
    destruct (N.ltb_spec x y); [reflexivity|lia].
  - now rewrite N.ltb_irrefl.
Qed.

Lemma lex_le_refl (a : jsstring) : lex_le a a.
Proof. induction a; constructor; assumption. Qed.

Lemma length_str_repeat (s : jsstring) (n : nat) :
  length (str_repeat s n) = (n * length s)%nat.
Proof.
  unfold str_repeat. induction n as [|n IH]; simpl; [reflexivity|].
  rewrite length_app, IH. reflexivity.
Qed.

(** ** Sorting with a comparator *)

Section ArraySortFacts.
Context {A : Type} (comparefn : A -> A -> option Z).
Hypothesis comparefn_asym :
  forall x y, 0 < SortCompare comparefn x y -> SortCompare comparefn y x <= 0.

Lemma sort_insert_HdRel (x y : A) (l : list A) :
  HdRel (in_order comparefn) y l -> in_order comparefn y x ->
  HdRel (in_order comparefn) y (sort_insert comparefn x l).
Proof.
  intros Hl Hyx. destruct l as [|z l]; simpl.
  - now constructor.
  - inversion Hl; subst.
    destruct (0 <? SortCompare comparefn x z); now constructor.
Qed.

Lemma sort_insert_Sorted (x : A) (l : list A) :
  Sorted (in_order comparefn) l -> Sorted (in_order comparefn) (sort_insert comparefn x l).
Proof.
  induction 1 as [|y l Hs IH Hhd]; simpl.
  - repeat constructor.
  - destruct (Z.ltb_spec 0 (SortCompare comparefn x y)) as [Hgt|Hle].
    + constructor; [exact IH|].
      apply sort_insert_HdRel; [exact Hhd|].
      now apply comparefn_asym.
    + constructor; [now constructor|]. constructor. exact Hle.
Qed.

Lemma Array_sort_Sorted (l : list A) : Sorted (in_order comparefn) (Array_sort comparefn l).
Proof.
  induction l as [|x l IH]; simpl; [constructor|].
  now apply sort_insert_Sorted.
Qed.

Lemma Array_sort_fixed (l : list A) :
  Sorted (in_order comparefn) l -> Array_sort comparefn l = l.
Proof.
  induction 1 as [|x l Hs IH Hhd]; simpl; [reflexivity|].
  fold (Array_sort comparefn l). rewrite IH.
  destruct Hhd as [|y l Hxy]; simpl; [reflexivity|].
  unfold in_order in Hxy.
  destruct (Z.ltb_spec 0 (SortCompare comparefn x y)); [lia|reflexivity].
Qed.

Lemma Array_sort_idempotent (l : list A) :
  Array_sort comparefn (Array_sort comparefn l) = Array_sort comparefn l.
Proof. apply Array_sort_fixed, Array_sort_Sorted. Qed.

End ArraySortFacts.

Lemma sort_insert_Permutation {A} (comparefn : A -> A -> option Z) (x : A) (l : list A) :
  Permutation (sort_insert comparefn x l) (x :: l).
Proof.
  induction l as [|y l IH]; simpl; [reflexivity|].
  destruct (0 <? SortCompare comparefn x y); [|reflexivity].
  rewrite IH. apply perm_swap.
Qed.

Lemma Array_sort_Permutation {A} (comparefn : A -> A -> option Z) (l : list A) :
  Permutation (Array_sort comparefn l) l.
Proof.
  induction l as [|x l IH]; simpl; [reflexivity|].
  fold (Array_sort comparefn l).
  rewrite sort_insert_Permutation. now constructor.
Qed.

Lemma Sorted_adjacent {A} (R : A -> A -> Prop) (l : list A) (i : nat) (a b : A) :
  Sorted R l -> l !! i = Some a -> l !! S i = Some b -> R a b.
Proof.
  intros Hs. revert i. induction Hs as [|x l Hs IH Hhd]; intros i Ha Hb.
  - discriminate Ha.
  - destruct i as [|i]; simpl in Ha, Hb.
    + injection Ha as ->. destruct Hhd as [|y l Hxy]; [discriminate Hb|].
      simpl in Hb. injection Hb as ->. exact Hxy.
    + now apply (IH i).
Qed.

(** ** The comparator of [moduleSort] *)

Lemma moduleSort_compare_asym (a b : PackageResult) :
  0 < SortCompare moduleSort_compare a b -> SortCompare moduleSort_compare b a <= 0.
Proof.
  unfold SortCompare, moduleSort_compare.
  destruct (Z.gtb_spec (maxSeverity a) (maxSeverity b)); [lia|].
  destruct (Z.gtb_spec (maxSeverity b) (maxSeverity a)); [lia|].
  destruct (Z.eqb_spec (maxSeverity a) (maxSeverity b)) as [_|]; [|lia].
  destruct (Z.eqb_spec (maxSeverity b) (maxSeverity a)) as [_|]; [|lia].
  destruct (str_lt (name a) (name b)); [lia|].
  destruct (str_lt (name b) (name a)); lia.
Qed.

Lemma in_order_moduleSort (a b : PackageResult) :
  in_order moduleSort_compare a b ->
  maxSeverity b <= maxSeverity a /\
  (maxSeverity a = maxSeverity b -> lex_le (name a) (name b)).
Proof.
  unfold in_order, SortCompare, moduleSort_compare.
  destruct (Z.gtb_spec (maxSeverity a) (maxSeverity b)); [intros _; split; lia|].
  destruct (Z.gtb_spec (maxSeverity b) (maxSeverity a)); [lia|].
  destruct (Z.eqb_spec (maxSeverity a) (maxSeverity b)) as [_|]; [|lia].
  destruct (str_lt (name a) (name b)) eqn:Hab.
  - intros _. split; [lia|]. intros _. now apply str_lt_true_le.
  - destruct (str_lt (name b) (name a)) eqn:Hba; [lia|].
    intros _. split; [lia|]. intros _. now apply str_lt_false_le.
Qed.

Lemma moduleSort_Sorted (h : heap) (report : ref) :
  Sorted (in_order moduleSort_compare) ((moduleSort h report).1 (moduleSort h report).2).
Proof.
  simpl. rewrite fn_lookup_insert.
  apply Array_sort_Sorted, moduleSort_compare_asym.
Qed.

Lemma moduleSort_Permutation (h : heap) (report : ref) :
  Permutation ((moduleSort h report).1 (moduleSort h report).2) (h report).
Proof. simpl. rewrite fn_lookup_insert. apply Array_sort_Permutation. Qed.

(** C1. After [moduleSort], every record is followed by one of the same or
    a lower [maxSeverity], and of two neighbours with the same
    [maxSeverity] the first has the lexicographically smaller or equal
    name. *)
Theorem moduleSort_adjacent (h : heap) (report : ref) (i : nat) (a b : PackageResult) :
  (moduleSort h report).1 (moduleSort h report).2 !! i = Some a ->
  (moduleSort h report).1 (moduleSort h report).2 !! S i = Some b ->
  maxSeverity a >= maxSeverity b /\
  (maxSeverity a = maxSeverity b -> lex_le (name a) (name b)).
Proof.
  intros Ha Hb.
  pose proof (Sorted_adjacent _ _ _ _ _ (moduleSort_Sorted h report) Ha Hb) as Hab.
  apply in_order_moduleSort in Hab. destruct Hab as [Hsev Hname].
  split; [lia|exact Hname].
Qed.

Lemma moduleSort_adjacent_witness :
  maxSeverity P2 >= maxSeverity P1 /\
  (maxSeverity P2 = maxSeverity P1 -> lex_le (name P2) (name P1)).
Proof.
  apply (moduleSort_adjacent (store [P1; P4; P2]) 0%nat 0%nat P2 P1); reflexivity.
Defined.

(** C9. [moduleSort] returns the reference it was given, the array behind
    it holds the sorted elements, and sorting the result once more changes
    no array of the store. *)
Theorem moduleSort_idempotent (h : heap) (report : ref) :
  (moduleSort h report).2 = report /\
  (moduleSort h report).1 report = Array_sort moduleSort_compare (h report) /\
  (moduleSort (moduleSort h report).1 (moduleSort h report).2).2 = report /\
  forall r : ref,
    (moduleSort (moduleSort h report).1 (moduleSort h report).2).1 r
    = (moduleSort h report).1 r.
Proof.
  simpl. rewrite !fn_lookup_insert. repeat split.
  intros r. destruct (decide (report = r)) as [->|Hne].
  - rewrite !fn_lookup_insert.
    apply Array_sort_idempotent, moduleSort_compare_asym.
  - now rewrite !fn_lookup_insert_ne by exact Hne.
Qed.

(** ** The vulnerability summary *)

Lemma isSecurity_decide (f : Failure) :
  isSecurity f = if decide (group f = u "security") then true else false.
Proof. reflexivity. Qed.

Lemma countIn_cons (s : Severity) (f : Failure) (fs : list Failure) :
  countIn s (f :: fs)
  = ((if isSecurity f && bool_decide (severity f = s) then 1 else 0) + countIn s fs)%nat.
Proof.
  unfold countIn. simpl. destruct (isSecurity f); simpl; [|reflexivity].
  destruct (bool_decide (severity f = s)); reflexivity.
Qed.

Lemma tallyFailure_counts (n : jsstring) (fs : list Failure) (ns : NetSecurity) :
  nLOW (foldl (tallyFailure n) ns fs) = (nLOW ns + countIn LOW fs)%nat /\
  nMEDIUM (foldl (tallyFailure n) ns fs) = (nMEDIUM ns + countIn MEDIUM fs)%nat /\
  nHIGH (foldl (tallyFailure n) ns fs) = (nHIGH ns + countIn HIGH fs)%nat /\
  nCRITICAL (foldl (tallyFailure n) ns fs) = (nCRITICAL ns + countIn CRITICAL fs)%nat /\
  AFFECTED (foldl (tallyFailure n) ns fs)
  = (if existsb isSecurity fs then {[ n ]} ∪ AFFECTED ns else AFFECTED ns).
Proof.
  revert ns. induction fs as [|f fs IH]; intros ns.
  - simpl. unfold countIn. simpl. repeat split; lia.
  - cbn [foldl existsb]. rewrite !countIn_cons.
    destruct (IH (tallyFailure n ns f)) as (HL & HM & HH & HC & HA).
    rewrite HL, HM, HH, HC, HA. clear IH HL HM HH HC HA.
    unfold tallyFailure. rewrite isSecurity_decide.
    destruct (decide (group f = u "security")) as [_|_]; cbn [andb orb].
    + assert (Hset : forall X : gset jsstring,
                 (if existsb isSecurity fs then {[ n ]} ∪ ({[ n ]} ∪ X) else {[ n ]} ∪ X)
                 = {[ n ]} ∪ X).
      { intros X. destruct (existsb isSecurity fs); [set_solver|reflexivity]. }
      destruct (severity f); cbn; rewrite Hset;
        repeat case_bool_decide; try discriminate; try congruence;
        repeat split; lia.
    + repeat split; lia.
Qed.

Lemma severityCount_cons (s : Severity) (pkg : PackageResult) (report : list PackageResult) :
  severityCount s (pkg :: report)
  = (countIn s (default [] (failures pkg)) + severityCount s report)%nat.
Proof.
  unfold severityCount, securityFailures, countIn. simpl.
  now rewrite List.filter_app, length_app.
Qed.

Lemma tally_counts (report : list PackageResult) (ns : NetSecurity) :
  nLOW (foldl tallyPackage ns report) = (nLOW ns + severityCount LOW report)%nat /\
  nMEDIUM (foldl tallyPackage ns report) = (nMEDIUM ns + severityCount MEDIUM report)%nat /\
  nHIGH (foldl tallyPackage ns report) = (nHIGH ns + severityCount HIGH report)%nat /\
  nCRITICAL (foldl tallyPackage ns report) = (nCRITICAL ns + severityCount CRITICAL report)%nat /\
  AFFECTED (foldl tallyPackage ns report)
  = list_to_set (map name (List.filter hasSecurityFailure report)) ∪ AFFECTED ns.
Proof.
  revert ns. induction report as [|pkg report IH]; intros ns.
  - simpl. unfold severityCount. simpl. repeat split; try lia. set_solver.
  - cbn [foldl]. rewrite !severityCount_cons.
    destruct (IH (tallyPackage ns pkg)) as (HL & HM & HH & HC & HA).
    rewrite HL, HM, HH, HC, HA. clear IH HL HM HH HC HA.
    unfold tallyPackage.
    destruct (tallyFailure_counts (name pkg) (default [] (failures pkg)) ns)
      as (HL & HM & HH & HC & HA).
    rewrite HL, HM, HH, HC, HA.
    repeat split; try lia.
    cbn [List.filter]. unfold hasSecurityFailure at 2.
    destruct (existsb isSecurity (default [] (failures pkg))); cbn [map list_to_set].
    + set_solver.
    + reflexivity.
Qed.

Lemma size_affected (report : list PackageResult) :
  size (AFFECTED (tally report)) = length (affectedModules report).
Proof.
  unfold tally. destruct (tally_counts report netSecurity0) as (_ & _ & _ & _ & ->).
  unfold affectedModules. cbn [AFFECTED netSecurity0].
  rewrite <- (size_list_to_set (C := gset jsstring)) by apply NoDup_remove_dups.
  f_equal. apply set_eq. intros x.
  rewrite elem_of_union, !elem_of_list_to_set, elem_of_remove_dups. set_solver.
Qed.

Lemma bucketed_length (l : list Failure) :
  length (List.filter (fun f => negb (bool_decide (severity f = NONE))) l)
  = (length (List.filter (fun f => bool_decide (severity f = CRITICAL)) l)
     + length (List.filter (fun f => bool_decide (severity f = HIGH)) l)
     + length (List.filter (fun f => bool_decide (severity f = MEDIUM)) l)
     + length (List.filter (fun f => bool_decide (severity f = LOW)) l))%nat.
Proof.
  induction l as [|f l IH]; [reflexivity|].
  cbn [List.filter].
  destruct (severity f); repeat case_bool_decide; try discriminate; try congruence;
    cbn; lia.
Qed.

Lemma shortVulnerabilityList_lines (t : Terminal) (report : list PackageResult) :
  shortVulnerabilityList t report
  = (summaryLines t (severityCount CRITICAL report + severityCount HIGH report
                     + severityCount MEDIUM report + severityCount LOW report) report,
     inr tt).
Proof.
  unfold shortVulnerabilityList, summaryLines, vulnerabilityCount.
  rewrite size_affected.
  unfold tally. destruct (tally_counts report netSecurity0) as (-> & -> & -> & -> & _).
  reflexivity.
Qed.

Lemma tallyPackage_missing (ns : NetSecurity) (pkg : PackageResult) :
  failures pkg = None -> tallyPackage ns pkg = ns.
Proof. unfold tallyPackage. now intros ->. Qed.

(** C2, as amended. The summary counts, over the failures of every record
    whether published or not, the security failures of each of the four
    severities; its total is the number of security failures of severity
    CRITICAL, HIGH, MEDIUM or LOW, and the number of modules is the number
    of distinct names with a security failure. For P1 (two HIGH, one LOW)
    and P2 (one CRITICAL) it shows 4, 2 and 1, 2, 0, 1. *)
Theorem shortVulnerabilityList_totals (t : Terminal) (report : list PackageResult) :
  shortVulnerabilityList t report
  = (summaryLines t (length (bucketed report)) report, inr tt) /\
  length (bucketed report)
  = (severityCount CRITICAL report + severityCount HIGH report
     + severityCount MEDIUM report + severityCount LOW report)%nat /\
  (shortVulnerabilityList plain [P1; P2]).1
  = [ u "  ! 4 security vulnerabilities found across 2 modules";
      u "    C 1 critical severity";
      u "    H 2 high severity";
      u "    M 0 medium severity";
      u "    L 1 low severity" ].
Proof.
  assert (Hlen : length (bucketed report)
                 = (severityCount CRITICAL report + severityCount HIGH report
                    + severityCount MEDIUM report + severityCount LOW report)%nat)
    by apply bucketed_length.
  split; [|split; [exact Hlen|]].
  - rewrite Hlen. apply shortVulnerabilityList_lines.
  - vm_compute. reflexivity.
Qed.

(** C2, as stated, fails on a security failure of severity NONE: the
    total stays at 0 although the report holds one security failure. *)
Lemma shortVulnerabilityList_total_counterexample :
  shortVulnerabilityList plain [P3] <> summaryOfAllFailures plain [P3].
Proof. vm_compute. discriminate. Qed.

(** C10. A record without [failures] raises no error and adds nothing:
    the summary is the one of the report without that record, and it is
    the headline and the four severity lines with the figures of the
    other records. *)
Theorem shortVulnerabilityList_missing_failures (t : Terminal)
    (before after : list PackageResult) (pkg : PackageResult) :
  failures pkg = None ->
  shortVulnerabilityList t (before ++ pkg :: after)
  = ([ (if (0 <? length (affectedModules (before ++ after)))%nat
        then u "  "
             ++ (if (0 <? length (bucketed (before ++ after)))%nat
                 then chalk t COLORS.red (u "!") else chalk t COLORS.green CHECK)
             ++ u " " ++ dec (length (bucketed (before ++ after)))
             ++ u " security vulnerabilities found across "
             ++ dec (length (affectedModules (before ++ after))) ++ u " modules"
        else u "  "
             ++ (if (0 <? length (bucketed (before ++ after)))%nat
                 then chalk t COLORS.red (u "!") else chalk t COLORS.green CHECK)
             ++ u " " ++ dec (length (bucketed (before ++ after)))
             ++ u " security vulnerabilities found");
       u "    " ++ chalk t COLORS.red (u "C") ++ u " "
         ++ dec (severityCount CRITICAL (before ++ after)) ++ u " critical severity";
       u "    " ++ chalk t COLORS.orange (u "H") ++ u " "
         ++ dec (severityCount HIGH (before ++ after)) ++ u " high severity";
       u "    " ++ chalk t COLORS.yellow (u "M") ++ u " "
         ++ dec (severityCount MEDIUM (before ++ after)) ++ u " medium severity";
       u "    " ++ chalk t COLORS.light1 (u "L") ++ u " "
         ++ dec (severityCount LOW (before ++ after)) ++ u " low severity" ],
     inr tt) /\
  shortVulnerabilityList t (before ++ pkg :: after)
  = shortVulnerabilityList t (before ++ after) /\
  (shortVulnerabilityList plain ([P1] ++ P4 :: [P2])).1
  = [ u "  ! 4 security vulnerabilities found across 2 modules";
      u "    C 1 critical severity";
      u "    H 2 high severity";
      u "    M 0 medium severity";
      u "    L 1 low severity" ].
Proof.
  intros Hnone.
  assert (Htally : tally (before ++ pkg :: after) = tally (before ++ after)).
  { unfold tally. rewrite !foldl_app. cbn [foldl].
    now rewrite tallyPackage_missing. }
  assert (Hsame : shortVulnerabilityList t (before ++ pkg :: after)
                  = shortVulnerabilityList t (before ++ after)).
  { unfold shortVulnerabilityList. now rewrite Htally. }
  split; [|split; [exact Hsame|vm_compute; reflexivity]].
  rewrite Hsame, shortVulnerabilityList_lines.
  unfold bucketed. rewrite bucketed_length. reflexivity.
Qed.

Lemma shortVulnerabilityList_missing_failures_witness :
  shortVulnerabilityList plain ([P1] ++ P4 :: [P2])
  = shortVulnerabilityList plain ([P1] ++ [P2]).
Proof.
  apply (shortVulnerabilityList_missing_failures plain [P1] [P2] P4). reflexivity.
Defined.

(** ** Table rows *)

Lemma String_repeat_ok (s : jsstring) (count : Z) :
  0 <= count -> String_repeat s count = inr (str_repeat s (Z.to_nat count)).
Proof.
  intros H. unfold String_repeat.
  destruct (Z.ltb_spec count 0); [lia|reflexivity].
Qed.

Lemma String_repeat_negative (s : jsstring) (count : Z) :
  count < 0 -> String_repeat s count = inl RangeError.
Proof.
  intros H. unfold String_repeat.
  destruct (Z.ltb_spec count 0); [reflexivity|lia].
Qed.

Lemma labelCell_overflow (t : Terminal) (m : jsstring) :
  W 0 < Z.of_nat (length m) -> labelCell t m = inl RangeError.
Proof.
  intros H. unfold labelCell. rewrite String_repeat_negative by lia. reflexivity.
Qed.

Lemma labelCell_fits (t : Terminal) (m : jsstring) :
  Z.of_nat (length m) <= W 0 ->
  labelCell t m
  = inr (bar t ++ u " " ++ interpolate m ++ u " "
         ++ str_repeat (u " ") (Z.to_nat (W 0) - length m) ++ bar t ++ u " ").
Proof.
  intros H. unfold labelCell. rewrite String_repeat_ok by lia. cbn [rbind].
  replace (Z.to_nat (W 0 - Z.of_nat (length m))) with (Z.to_nat (W 0) - length m)%nat by lia.
  reflexivity.
Qed.

Lemma moduleName_truncated (pkg : PackageResult) :
  W 0 < Z.of_nat (length (name pkg ++ u " @ " ++ version pkg)) ->
  moduleName pkg = take 26 (name pkg) ++ u "... @ " ++ version pkg.
Proof.
  intros H. unfold moduleName.
  destruct (Z.ltb_spec (W 0) (Z.of_nat (length (name pkg ++ u " @ " ++ version pkg))));
    [reflexivity|lia].
Qed.

Lemma moduleName_length (pkg : PackageResult) :
  (length (version pkg) <= 8)%nat -> Z.of_nat (length (moduleName pkg)) <= W 0.
Proof.
  intros Hv. unfold moduleName.
  destruct (Z.ltb_spec (W 0) (Z.of_nat (length (name pkg ++ u " @ " ++ version pkg))))
    as [Hlong|Hfit]; [|exact Hfit].
  rewrite !length_app, length_take. change (Z.to_nat (W 0 - 14)) with 26%nat.
  change (length (u "... @ ")) with 6%nat. change (W 0) with 40. lia.
Qed.

Lemma moduleName_too_long (pkg : PackageResult) :
  W 0 < Z.of_nat (length (name pkg ++ u " @ " ++ version pkg)) ->
  (26 <= length (name pkg))%nat -> (8 < length (version pkg))%nat ->
  W 0 < Z.of_nat (length (moduleName pkg)).
Proof.
  intros Hlong Hn Hv.
  rewrite (moduleName_truncated pkg Hlong).
  rewrite !length_app, length_take. change (length (u "... @ ")) with 6%nat.
  change (W 0) with 40. lia.
Qed.

Lemma chalk_length (t : Terminal) (c : COLORS.t) (text : jsstring) :
  (length text <= length (chalk t c text))%nat.
Proof.
  unfold chalk. destruct text as [|x text]; [reflexivity|].
  rewrite !length_app. lia.
Qed.

Lemma severityMeter_length (t : Terminal) (s : Severity) :
  (4 <= length (severityMeter t s))%nat.
Proof.
  unfold severityMeter. rewrite length_app.
  pose proof (chalk_length t (SEVERITY_COLOR s) (str_repeat (u "|") (indexOf s))) as H1.
  pose proof (chalk_length t COLORS.base (str_repeat (u "|") (4 - indexOf s))) as H2.
  rewrite length_str_repeat in H1, H2.
  change (length (u "|")) with 1%nat in H1, H2.
  revert H1 H2.
  generalize (length (chalk t (SEVERITY_COLOR s) (str_repeat (u "|") (indexOf s)))).
  generalize (length (chalk t COLORS.base (str_repeat (u "|") (4 - indexOf s)))).
  intros a b. destruct s; cbn [indexOf]; lia.
Qed.

Lemma plus3_take (m label : jsstring) :
  (2 <= length m)%nat -> plus3 (charAt m 0) (charAt m 1) label = take 2 m ++ label.
Proof.
  destruct m as [|a [|b m]]; simpl; intros H; try lia. reflexivity.
Qed.

Lemma nonEmpty_app_r (x y : jsstring) : nonEmpty y = true -> nonEmpty (x ++ y) = true.
Proof. destruct x; [trivial|reflexivity]. Qed.

Lemma nonEmpty_badge (t : Terminal) (c : COLORS.t) (n : nat) (letter : string) :
  nonEmpty (badge t c n letter) = true.
Proof. unfold badge. now apply nonEmpty_app_r. Qed.

(** Two lists of counts agree position by position. *)
Ltac counts_eq := repeat (apply (f_equal2 cons); [lia|]); reflexivity.

Lemma countFailures_from (fs : list Failure) (l m h c : nat) :
  foldl countFailure [l; m; h; c] fs
  = [ (l + countIn LOW fs)%nat; (m + countIn MEDIUM fs)%nat;
      (h + countIn HIGH fs)%nat; (c + countIn CRITICAL fs)%nat ].
Proof.
  revert l m h c. induction fs as [|f fs IH]; intros l m h c.
  - unfold countIn. simpl. now rewrite !Nat.add_0_r.
  - cbn [foldl]. rewrite !countIn_cons. unfold countFailure at 2.
    rewrite isSecurity_decide.
    destruct (decide (group f = u "security")) as [_|_]; cbn [andb].
    + destruct (severity f); cbn [alter list_alter]; rewrite IH;
        repeat case_bool_decide; try discriminate; try congruence;
        counts_eq.
    + rewrite IH. counts_eq.
Qed.

Lemma countFailures_counts (fs : list Failure) :
  countFailures fs
  = [countIn LOW fs; countIn MEDIUM fs; countIn HIGH fs; countIn CRITICAL fs].
Proof. unfold countFailures. now rewrite countFailures_from. Qed.

Lemma securityBadges_shown (t : Terminal) (fs : list Failure) :
  concat (securityBadges t (countFailures fs))
  = aggregateGlyph t fs ++ concat (shownBadges t fs) /\
  length (List.filter nonEmpty (securityBadges t (countFailures fs)))
  = S (length (shownBadges t fs)).
Proof.
  rewrite countFailures_counts.
  unfold securityBadges, aggregateGlyph, shownBadges, buckets.
  cbn [foldl lookup_total list_lookup_total List.filter fst snd].
  replace (0 + countIn LOW fs + countIn MEDIUM fs + countIn HIGH fs + countIn CRITICAL fs)%nat
    with (countIn CRITICAL fs + countIn HIGH fs + countIn MEDIUM fs + countIn LOW fs)%nat
    by lia.
  set (glyph := if (countIn CRITICAL fs + countIn HIGH fs + countIn MEDIUM fs
                    + countIn LOW fs =? 0)%nat
                then chalk t COLORS.green CHECK ++ u " 0"
                else chalk t COLORS.red (u "X") ++ u " ").
  assert (Hglyph : nonEmpty glyph = true).
  { unfold glyph. destruct (_ =? 0)%nat; now apply nonEmpty_app_r. }
  cbn [List.filter]. rewrite Hglyph.
  destruct (0 <? countIn CRITICAL fs)%nat, (0 <? countIn HIGH fs)%nat,
           (0 <? countIn MEDIUM fs)%nat, (0 <? countIn LOW fs)%nat;
    cbn [List.filter map fst snd concat app nonEmpty length];
    rewrite ?nonEmpty_badge; cbn [length]; rewrite ?app_nil_r; split; reflexivity.
Qed.

(** C3, at a name of thirty characters with a version of twelve: the
    shortened label still has 44 characters, the padding count is negative
    and the row is never printed. *)
Theorem moduleList_long_version_throws (t : Terminal) (dividers : bool) :
  moduleName P5 = u "a-rather-long-package-name... @ 1.0.0-beta.1" /\
  length (moduleName P5) = 44%nat /\
  moduleRow t P5 = inl RangeError /\
  (moduleList t (store [P5]) 0%nat dividers).2
  = ([headerLine t; topBorder t], inl RangeError).
Proof. repeat split. Qed.

(** C4, at every severity: the risk badge holds the first two code units
    of the meter, not its four slots. Without colours that is two bars
    whatever the severity; with colours it is the start of the first
    escape sequence. *)
Theorem riskBadge_two_code_units (t : Terminal) (s : Severity) :
  riskBadge t s = take 2 (severityMeter t s) ++ severityTextLabel t s /\
  severityMeter plain CRITICAL = u "||||" /\
  riskBadge plain CRITICAL = u "||Crit" /\
  riskBadge plain NONE = u "||None" /\
  take 2 (riskBadge ansi CRITICAL) = [27%N] ++ u "[" /\
  (exists rest, moduleRow plain P2
                = inr (BOX_V ++ u " P2 @ 2.1.0 " ++ str_repeat (u " ") 30
                       ++ BOX_V ++ u " ||Crit  " ++ BOX_V ++ rest)).
Proof.
  split.
  - unfold riskBadge. apply plus3_take.
    pose proof (severityMeter_length t s). lia.
  - repeat split. eexists. vm_compute. reflexivity.
Qed.

Lemma shownBadges_example :
  buckets [security HIGH; security LOW; security HIGH]
  = [ (COLORS.red, 0%nat, "C"%string); (COLORS.orange, 2%nat, "H"%string);
      (COLORS.yellow, 0%nat, "M"%string); (COLORS.light1, 1%nat, "L"%string) ] /\
  shownBadges plain [security HIGH; security LOW; security HIGH] = [u "2H "; u "1L "] /\
  securityCell plain [security HIGH; security LOW; security HIGH]
  = inr (u "X 2H 1L " ++ str_repeat (u " ") 7 ++ BOX_V).
Proof. repeat split. Qed.

Lemma blankCells_value (t : Terminal) :
  blankCells t = inr (blankCell t 11 ++ blankCell t 23 ++ blankCell t 15).
Proof.
  unfold blankCells, blankCell.
  change (W 1 - 1) with 11. change (W 2) with 23. change (W 3) with 15.
  rewrite !String_repeat_ok by lia. cbn [rbind].
  change (Z.to_nat 11) with 11%nat. change (Z.to_nat 23) with 23%nat.
  change (Z.to_nat 15) with 15%nat.
  now rewrite <- !app_assoc.
Qed.

Lemma moduleRow_overflow (t : Terminal) (pkg : PackageResult) :
  W 0 < Z.of_nat (length (moduleName pkg)) -> exists e, moduleRow t pkg = inl e.
Proof.
  intros Hlong. unfold moduleRow. rewrite (labelCell_overflow t _ Hlong).
  destruct (published pkg); [|now exists RangeError].
  destruct (required (license pkg)) as [e|lic]; [now exists e|].
  destruct (required (failures pkg)) as [e|fs]; [now exists e|].
  destruct (severityOf (maxSeverity pkg)) as [e|sev]; [now exists e|].
  now exists RangeError.
Qed.

(** ** From rows to the table *)

Lemma renderPackage_ok (t : Terminal) (dividers : bool) (len ind : nat)
    (pkg : PackageResult) (line : jsstring) :
  moduleRow t pkg = inr line ->
  renderPackage t dividers len pkg ind = (line :: closingRule t dividers len ind, inr tt).
Proof.
  intros Hrow. unfold renderPackage, closingRule. rewrite Hrow.
  unfold io_lift, io_bind, L, io_ret.
  destruct (Z.of_nat ind =? Z.of_nat len - 1); [reflexivity|].
  destruct dividers; reflexivity.
Qed.

Lemma renderPackage_throws (t : Terminal) (dividers : bool) (len ind : nat)
    (pkg : PackageResult) (e : exn) :
  moduleRow t pkg = inl e ->
  renderPackage t dividers len pkg ind = ([], inl e).
Proof. intros Hrow. unfold renderPackage. rewrite Hrow. reflexivity. Qed.

Lemma forEach_rows (t : Terminal) (dividers : bool) (len : nat)
    (rows : list PackageResult) (ind : nat) :
  (forall pkg, In pkg rows -> exists line, moduleRow t pkg = inr line) ->
  (forEach (renderPackage t dividers len) rows ind).2 = inr tt /\
  forall pkg line, In pkg rows -> moduleRow t pkg = inr line ->
    In line (forEach (renderPackage t dividers len) rows ind).1.
Proof.
  revert ind. induction rows as [|x rows IH]; intros ind Hall.
  - split; [reflexivity|]. intros pkg line [].
  - destruct (Hall x (or_introl eq_refl)) as [line0 Hx].
    destruct (IH (S ind) (fun pkg H => Hall pkg (or_intror H))) as [Hret Hin].
    cbn [forEach]. rewrite (renderPackage_ok _ _ _ _ _ _ Hx).
    unfold io_bind at 1.
    destruct (forEach (renderPackage t dividers len) rows (S ind)) as [out r].
    cbn [fst snd] in *. split; [exact Hret|].
    intros pkg line [->|Hpkg] Hrow.
    + left. congruence.
    + right. apply in_or_app. right. now apply (Hin pkg).
Qed.

Lemma moduleList_prints_rows (t : Terminal) (h : heap) (report : ref) (dividers : bool) :
  (forall pkg, In pkg (h report) -> exists line, moduleRow t pkg = inr line) ->
  (moduleList t h report dividers).2.2 = inr tt /\
  forall pkg line, In pkg (h report) -> moduleRow t pkg = inr line ->
    In line (moduleList t h report dividers).2.1.
Proof.
  intros Hall.
  assert (Hperm := moduleSort_Permutation h report).
  unfold moduleList.
  change (moduleSort h report) with ((moduleSort h report).1, (moduleSort h report).2).
  cbv iota beta. cbn [snd].
  set (rows := (moduleSort h report).1 (moduleSort h report).2) in *.
  destruct (forEach_rows t dividers (length rows) rows 0) as [Hret Hin].
  { intros pkg Hpkg. apply Hall. now apply (Permutation_in _ Hperm). }
  unfold io_bind, L.
  destruct (forEach (renderPackage t dividers (length rows)) rows 0%nat) as [out r].
  cbn [fst snd] in *. split; [exact Hret|].
  intros pkg line Hpkg Hrow. right. right.
  apply (Hin pkg); [|exact Hrow].
  apply (Permutation_in _ (Permutation_sym Hperm)). exact Hpkg.
Qed.

(** ** The empty report *)

Lemma chalk_inj (t : Terminal) (c : COLORS.t) (x y : jsstring) :
  chalk t c x = chalk t c y -> x = y.
Proof.
  unfold chalk. destruct x as [|a x], y as [|b y]; intros H.
  - reflexivity.
  - symmetry in H. apply app_eq_nil in H. destruct H as [_ H].
    apply app_eq_nil in H. destruct H as [H _]. discriminate H.
  - apply app_eq_nil in H. destruct H as [_ H].
    apply app_eq_nil in H. destruct H as [H _]. discriminate H.
  - apply app_inv_head in H. apply app_inv_tail in H. exact H.
Qed.

Lemma bottomBorder_fresh (t : Terminal) :
  ~ In (bottomBorder t) [headerLine t; topBorder t].
Proof.
  intros [H|[H|[]]]; apply chalk_inj in H; discriminate H.
Qed.

(** C7, at the empty report: sorting returns the empty array and the
    summary shows zeros throughout, but the table is the header and the top
    border alone; the bottom border is not printed. *)
Theorem moduleList_empty_report (t : Terminal) (h : heap) (report : ref) (dividers : bool) :
  h report = [] ->
  (moduleSort h report).1 (moduleSort h report).2 = [] /\
  (moduleList t h report dividers).2 = ([headerLine t; topBorder t], inr tt) /\
  ~ In (bottomBorder t) (moduleList t h report dividers).2.1 /\
  shortVulnerabilityList t []
  = ([ headline t 0 0;
       severityLine t COLORS.red "C" 0 " critical severity";
       severityLine t COLORS.orange "H" 0 " high severity";
       severityLine t COLORS.yellow "M" 0 " medium severity";
       severityLine t COLORS.light1 "L" 0 " low severity" ], inr tt).
Proof.
  intros Hempty.
  assert (Hsorted : (moduleSort h report).1 (moduleSort h report).2 = []).
  { simpl. rewrite fn_lookup_insert, Hempty. reflexivity. }
  assert (Hlist : (moduleList t h report dividers).2 = ([headerLine t; topBorder t], inr tt)).
  { unfold moduleList.
    change (moduleSort h report) with ((moduleSort h report).1, (moduleSort h report).2).
    cbv iota beta. cbn [snd]. rewrite Hsorted. reflexivity. }
  split; [exact Hsorted|]. split; [exact Hlist|]. split.
  - rewrite Hlist. apply bottomBorder_fresh.
  - reflexivity.
Qed.

Lemma moduleList_empty_report_witness :
  (moduleList plain (store []) 0%nat false).2
  = ([headerLine plain; topBorder plain], inr tt) /\
  ~ In (bottomBorder plain) (moduleList plain (store []) 0%nat false).2.1.
Proof.
  destruct (moduleList_empty_report plain (store []) 0%nat false eq_refl)
    as (_ & Hlist & Hborder & _).
  split; [exact Hlist|exact Hborder].
Defined.

(** ** Writing the report to a file *)

(** C8, as amended. When the directory is a string, or is not one and
    the working directory of the process can be told, the promise of
    [outputReport] resolves. When serialising or writing fails, the error
    UnableToFormatOutput is reported and nothing else is left behind.
    When both succeed, the file is written in that directory, which is
    the working directory of the process if the argument is not a string,
    under the name ncm-score-report-, the clock reading in milliseconds,
    .json. *)
Theorem outputReport_resolves {R : Type} (host : Host R) (report : R)
    (dir : option jsstring) (d0 : jsstring) :
  dir = Some d0 \/ (dir = None /\ cwd host = inr d0) ->
  (outputReport host report dir).2 = Resolved /\
  (forall e, JSON_stringify host report = inl e ->
     (outputReport host report dir).1
     = [ErrorReported (u "Tools::UnableToFormatOutput")]) /\
  (forall json e,
     JSON_stringify host report = inr json ->
     fs_writeFile host
       (path_join host d0 (u "ncm-score-report-" ++ decZ (now host) ++ u ".json")) json
     = inl e ->
     (outputReport host report dir).1
     = [ErrorReported (u "Tools::UnableToFormatOutput")]) /\
  (forall json,
     JSON_stringify host report = inr json ->
     fs_writeFile host
       (path_join host d0 (u "ncm-score-report-" ++ decZ (now host) ++ u ".json")) json
     = inr tt ->
     (outputReport host report dir).1
     = [ FileWritten
           (path_join host d0 (u "ncm-score-report-" ++ decZ (now host) ++ u ".json"))
           json;
         Printed
           (boxbox host CHECK
              (u "Report successfully written to: "
               ++ path_join host d0
                    (u "ncm-score-report-" ++ decZ (now host) ++ u ".json"))
              COLORS.green) ]).
Proof.
  intros Hdir.
  assert (Hd : outputReport_dir host dir = inr d0).
  { destruct Hdir as [->|[-> Hcwd]]; [reflexivity|exact Hcwd]. }
  unfold outputReport. rewrite Hd. unfold outputReport_try, reportFileName.
  repeat split.
  - destruct (JSON_stringify host report) as [e|json]; [reflexivity|].
    destruct (fs_writeFile host _ json) as [e|x]; reflexivity.
  - intros e He. rewrite He. reflexivity.
  - intros json e Hjson Hwrite. rewrite Hjson, Hwrite. reflexivity.
  - intros json Hjson Hwrite. rewrite Hjson, Hwrite. reflexivity.
Qed.

Lemma outputReport_resolves_witness :
  outputReport host_full tt None
  = ([ErrorReported (u "Tools::UnableToFormatOutput")], Resolved) /\
  outputReport host_ok tt None
  = ([ FileWritten (u "/home/user/project/ncm-score-report-1562000000000.json") (u "[]");
       Printed (CHECK ++ u " Report successfully written to: "
                ++ u "/home/user/project/ncm-score-report-1562000000000.json") ],
     Resolved).
Proof.
  destruct (outputReport_resolves host_full tt None (u "/home/user/project"))
    as (Hres & _ & Hfail & _); [right; split; reflexivity|].
  destruct (outputReport_resolves host_ok tt None (u "/home/user/project"))
    as (Hres' & _ & _ & Hok); [right; split; reflexivity|].
  split.
  - rewrite (surjective_pairing (outputReport host_full tt None)), Hres.
    rewrite (Hfail (u "[]") Error eq_refl eq_refl). reflexivity.
  - rewrite (surjective_pairing (outputReport host_ok tt None)), Hres'.
    rewrite (Hok (u "[]") eq_refl eq_refl). reflexivity.
Defined.

(** C8, as stated, fails when the directory is not a string and the
    working directory of the process cannot be told: [process.cwd()]
    throws before the [try] block and the promise is rejected. *)
Lemma outputReport_cwd_counterexample :
  (outputReport host_nocwd tt None).2 <> Resolved.
Proof. vm_compute. discriminate. Qed.

(** * Further properties *)

(** ** The order on names *)

Lemma lex_le_trans (a b c : jsstring) : lex_le a b -> lex_le b c -> lex_le a c.
Proof.
  intros Hab. revert c.
  induction Hab as [b|x y a b Hxy|x a b Hab IH]; intros c Hbc.
  - constructor.
  - inversion Hbc; subst.
    + apply lex_le_lt. lia.
    + now apply lex_le_lt.
  - inversion Hbc; subst.
    + now apply lex_le_lt.
    + apply lex_le_eq. now apply IH.
Qed.

Lemma lex_le_antisym (a b : jsstring) : lex_le a b -> lex_le b a -> a = b.
Proof.
  induction 1 as [b|x y a b Hxy|x a b Hab IH]; intros Hba.
  - now inversion Hba.
  - inversion Hba; subst; lia.
  - inversion Hba; subst; [lia|]. f_equal. now apply IH.
Qed.

Lemma str_lt_irrefl (a : jsstring) : str_lt a a = false.
Proof. apply lex_le_str_lt, lex_le_refl. Qed.

Lemma str_lt_asym (a b : jsstring) : str_lt a b = true -> str_lt b a = false.
Proof. intros H. now apply lex_le_str_lt, str_lt_true_le. Qed.

Lemma str_lt_neither (a b : jsstring) :
  str_lt a b = false -> str_lt b a = false -> a = b.
Proof.
  intros Hab Hba. apply lex_le_antisym; now apply str_lt_false_le.
Qed.

(** ** The order of the sorted array *)

Lemma in_order_moduleSort_iff (a b : PackageResult) :
  in_order moduleSort_compare a b <->
  maxSeverity b < maxSeverity a \/
  (maxSeverity a = maxSeverity b /\ lex_le (name a) (name b)).
Proof.
  split.
  - intros H. destruct (in_order_moduleSort a b H) as [Hsev Hname].
    destruct (Z.eq_dec (maxSeverity a) (maxSeverity b)) as [Heq|Hne].
    + right. split; [exact Heq|now apply Hname].
    + left. lia.
  - unfold in_order, SortCompare, moduleSort_compare.
    intros [Hlt|[Heq Hname]].
    + destruct (Z.gtb_spec (maxSeverity a) (maxSeverity b)); lia.
    + destruct (Z.gtb_spec (maxSeverity a) (maxSeverity b)); [lia|].
      destruct (Z.gtb_spec (maxSeverity b) (maxSeverity a)); [lia|].
      destruct (Z.eqb_spec (maxSeverity a) (maxSeverity b)); [|lia].
      destruct (str_lt (name a) (name b)); [lia|].
      rewrite (lex_le_str_lt _ _ Hname). lia.
Qed.

Lemma in_order_moduleSort_trans (a b c : PackageResult) :
  in_order moduleSort_compare a b -> in_order moduleSort_compare b c ->
  in_order moduleSort_compare a c.
Proof.
  rewrite !in_order_moduleSort_iff.
  intros [Hab|[Hab Nab]] [Hbc|[Hbc Nbc]]; try (left; lia).
  right. split; [lia|]. now apply (lex_le_trans _ (name b)).
Qed.

Lemma in_order_moduleSort_antisym (a b : PackageResult) :
  in_order moduleSort_compare a b -> in_order moduleSort_compare b a ->
  maxSeverity a = maxSeverity b /\ name a = name b.
Proof.
  rewrite !in_order_moduleSort_iff.
  intros [Hab|[Hab Nab]] [Hba|[Hba Nba]]; try lia.
  split; [exact Hab|]. now apply lex_le_antisym.
Qed.

Lemma Array_sort_moduleSort_StronglySorted (l : list PackageResult) :
  StronglySorted (in_order moduleSort_compare) (Array_sort moduleSort_compare l).
Proof.
  apply Sorted_StronglySorted.
  - intros a b c. apply in_order_moduleSort_trans.
  - apply Array_sort_Sorted, moduleSort_compare_asym.
Qed.

Lemma StronglySorted_pairs {A} (R : A -> A -> Prop) (l : list A) (i j : nat) (a b : A) :
  StronglySorted R l -> (i < j)%nat -> l !! i = Some a -> l !! j = Some b -> R a b.
Proof.
  intros Hs. revert i j. induction Hs as [|x l Hs IH Hall]; intros i j Hij Ha Hb.
  - discriminate Ha.
  - destruct j as [|j]; [lia|]. simpl in Hb. destruct i as [|i]; simpl in Ha.
    + injection Ha as ->. rewrite List.Forall_forall in Hall. apply Hall.
      apply list_elem_of_In. now apply (list_elem_of_lookup_2 l j).
    + apply (IH i j); [lia|exact Ha|exact Hb].
Qed.

Lemma sorted_Permutation_unique {A} (R : A -> A -> Prop) (l1 l2 : list A) :
  StronglySorted R l1 -> StronglySorted R l2 -> Permutation l1 l2 ->
  (forall a b, In a l1 -> In b l1 -> R a b -> R b a -> a = b) ->
  l1 = l2.
Proof.
  intros Hs1. revert l2. induction Hs1 as [|a l1 Hs1 IH Hall1]; intros l2 Hs2 Hperm Hanti.
  - now apply Permutation_nil in Hperm.
  - destruct Hs2 as [|b l2 Hs2 Hall2].
    + symmetry in Hperm. now apply Permutation_nil in Hperm.
    + rewrite List.Forall_forall in Hall1, Hall2.
      assert (Hab : a = b).
      { assert (Ha : In a (b :: l2)) by (apply (Permutation_in _ Hperm); now left).
        assert (Hb : In b (a :: l1))
          by (apply (Permutation_in _ (Permutation_sym Hperm)); now left).
        destruct Ha as [Ha|Ha]; [now symmetry|].
        destruct Hb as [Hb|Hb]; [exact Hb|].
        apply Hanti; [now left|now right|now apply Hall1|now apply Hall2]. }
      subst b. f_equal. apply IH; [exact Hs2|now apply Permutation_cons_inv in Hperm|].
      intros x y Hx Hy. apply Hanti; now right.
Qed.

Lemma NoDup_map_name_inj (l : list PackageResult) (a b : PackageResult) :
  List.NoDup (map name l) -> In a l -> In b l -> name a = name b -> a = b.
Proof.
  induction l as [|x l IH]; intros Hnd Ha Hb Hname; [destruct Ha|].
  simpl in Hnd. inversion Hnd as [|? ? Hnotin Hnd']; subst.
  destruct Ha as [->|Ha], Hb as [->|Hb].
  - reflexivity.
  - exfalso. apply Hnotin. rewrite Hname. now apply in_map.
  - exfalso. apply Hnotin. rewrite <- Hname. now apply in_map.
  - now apply IH.
Qed.

(** X1. [moduleList] sorts the caller's array before it prints, whether or
    not a row then fails: afterwards the array holds the records of before
    in the order of [moduleSort], and no other array has changed. *)
Theorem moduleList_sorts_store (t : Terminal) (h : heap) (report : ref) (dividers : bool) :
  (moduleList t h report dividers).1 report = Array_sort moduleSort_compare (h report) /\
  Permutation ((moduleList t h report dividers).1 report) (h report) /\
  forall r : ref, r <> report -> (moduleList t h report dividers).1 r = h r.
Proof.
  unfold moduleList.
  change (moduleSort h report) with ((moduleSort h report).1, (moduleSort h report).2).
  cbv iota beta. cbn [fst snd moduleSort].
  rewrite fn_lookup_insert. split; [reflexivity|]. split.
  - apply Array_sort_Permutation.
  - intros r Hr. now rewrite fn_lookup_insert_ne.
Qed.

Lemma moduleList_sorts_store_witness :
  (moduleList plain (<[1%nat := [P4; P2]]> (store [P1])) 1%nat false).1 0%nat = [P1].
Proof.
  destruct (moduleList_sorts_store plain (<[1%nat := [P4; P2]]> (store [P1])) 1%nat false)
    as (_ & _ & Hother).
  rewrite (Hother 0%nat) by discriminate. reflexivity.
Defined.

(** X2. In the sorted array every record, not only the next one, that
    comes later has the same or a lower [maxSeverity], and with the same
    [maxSeverity] a name that is not smaller. *)
Theorem moduleSort_ordered_pairs (h : heap) (report : ref) (i j : nat)
    (a b : PackageResult) :
  (i < j)%nat ->
  (moduleSort h report).1 (moduleSort h report).2 !! i = Some a ->
  (moduleSort h report).1 (moduleSort h report).2 !! j = Some b ->
  maxSeverity b <= maxSeverity a /\
  (maxSeverity a = maxSeverity b -> lex_le (name a) (name b)).
Proof.
  intros Hij Ha Hb. apply in_order_moduleSort.
  cbn [moduleSort fst snd] in Ha, Hb. rewrite fn_lookup_insert in Ha, Hb.
  exact (StronglySorted_pairs _ _ _ _ _ _
           (Array_sort_moduleSort_StronglySorted (h report)) Hij Ha Hb).
Qed.

Lemma moduleSort_ordered_pairs_witness :
  maxSeverity P4 <= maxSeverity P2 /\
  (maxSeverity P2 = maxSeverity P4 -> lex_le (name P2) (name P4)).
Proof.
  apply (moduleSort_ordered_pairs (store [P4; P1; P2]) 0%nat 0%nat 2%nat P2 P4);
    [lia|reflexivity|reflexivity].
Defined.

(** X3. The comparator of [moduleSort] answers [undefined] exactly for two
    records with the same [maxSeverity] and the same name, and it answers
    -1 one way round exactly when it answers 1 the other way round. *)
Theorem moduleSort_compare_consistent (a b : PackageResult) :
  (moduleSort_compare a b = None <->
   maxSeverity a = maxSeverity b /\ name a = name b) /\
  (moduleSort_compare a b = Some (-1) <-> moduleSort_compare b a = Some 1) /\
  (moduleSort_compare a b = None \/ moduleSort_compare a b = Some (-1)
   \/ moduleSort_compare a b = Some 1).
Proof.
  unfold moduleSort_compare.
  destruct (Z.gtb_spec (maxSeverity a) (maxSeverity b)) as [Hab|Hab];
    destruct (Z.gtb_spec (maxSeverity b) (maxSeverity a)) as [Hba|Hba]; try lia.
  - repeat split; try discriminate; try reflexivity; try lia; auto.
  - repeat split; try discriminate; try reflexivity; try lia; auto.
  - destruct (Z.eqb_spec (maxSeverity a) (maxSeverity b)) as [_|]; [|lia].
    destruct (Z.eqb_spec (maxSeverity b) (maxSeverity a)) as [_|]; [|lia].
    destruct (str_lt (name a) (name b)) eqn:Nab.
    + rewrite (str_lt_asym _ _ Nab).
      repeat split; try discriminate; try reflexivity; auto.
      intros [_ Hname]. rewrite Hname, str_lt_irrefl in Nab. discriminate Nab.
    + destruct (str_lt (name b) (name a)) eqn:Nba.
      * repeat split; try discriminate; auto.
        intros [_ Hname]. rewrite Hname, str_lt_irrefl in Nba. discriminate Nba.
      * repeat split; try discriminate; try lia; auto.
        now apply str_lt_neither.
Qed.

(** X4. When no two records bear the same name, the sorted array depends
    on the records alone and not on the order they came in. *)
Theorem moduleSort_canonical (h h' : heap) (report : ref) :
  Permutation (h report) (h' report) ->
  List.NoDup (map name (h report)) ->
  (moduleSort h report).1 report = (moduleSort h' report).1 report.
Proof.
  intros Hperm Hnd. cbn [moduleSort fst]. rewrite !fn_lookup_insert.
  apply (sorted_Permutation_unique (in_order moduleSort_compare)).
  - apply Array_sort_moduleSort_StronglySorted.
  - apply Array_sort_moduleSort_StronglySorted.
  - rewrite !Array_sort_Permutation. exact Hperm.
  - intros a b Ha Hb Hab Hba.
    destruct (in_order_moduleSort_antisym a b Hab Hba) as [_ Hname].
    apply (NoDup_map_name_inj (h report)); [exact Hnd| | |exact Hname].
    + now apply (Permutation_in _ (Array_sort_Permutation moduleSort_compare (h report))).
    + now apply (Permutation_in _ (Array_sort_Permutation moduleSort_compare (h report))).
Qed.

Lemma moduleSort_canonical_witness :
  (moduleSort (store [P1; P4; P2]) 0%nat).1 0%nat
  = (moduleSort (store [P2; P1; P4]) 0%nat).1 0%nat.
Proof.
  apply (moduleSort_canonical (store [P1; P4; P2]) (store [P2; P1; P4]) 0%nat).
  - change (Permutation [P1; P4; P2] [P2; P1; P4]).
    apply Permutation_sym, (Permutation_cons_app [P1; P4] [] P2). reflexivity.
  - change (List.NoDup [name P1; name P4; name P2]).
    repeat constructor; vm_compute; intuition discriminate.
Defined.

(** ** Severity names and ordinals *)

(** X5. Looking a [maxSeverity] up in SEVERITY_RMAP and asking for the
    index of a severity undo each other: the lookup gives [s] exactly at
    the index of [s], and throws for every other number. *)
Theorem severityOf_indexOf (z : Z) (s : Severity) :
  (severityOf z = inr s <-> z = Z.of_nat (indexOf s)) /\
  (severityOf z = inl TypeError <-> z < 0 \/ 4 < z) /\
  SEVERITY_RMAP !! indexOf s = Some s.
Proof.
  assert (Hcases : z < 0 \/ z = 0 \/ z = 1 \/ z = 2 \/ z = 3 \/ z = 4 \/ 4 < z) by lia.
  split; [|split; [|now destruct s]].
  - destruct Hcases as [H|[->|[->|[->|[->|[->|H]]]]]].
    + unfold severityOf. destruct (Z.ltb_spec z 0); [|lia].
      split; [discriminate|lia].
    + destruct s; split; intros H; try reflexivity; try discriminate H.
    + destruct s; split; intros H; try reflexivity; try discriminate H.
    + destruct s; split; intros H; try reflexivity; try discriminate H.
    + destruct s; split; intros H; try reflexivity; try discriminate H.
    + destruct s; split; intros H; try reflexivity; try discriminate H.
    + unfold severityOf. destruct (Z.ltb_spec z 0); [lia|].
      assert (Hn : (5 <= Z.to_nat z)%nat) by lia.
      rewrite (lookup_ge_None_2 SEVERITY_RMAP (Z.to_nat z)) by exact Hn.
      split; [discriminate|destruct s; cbn; lia].
  - destruct Hcases as [H|[->|[->|[->|[->|[->|H]]]]]];
      try (split; [discriminate|lia]).
    + unfold severityOf. destruct (Z.ltb_spec z 0); [|lia]. split; auto.
    + unfold severityOf. destruct (Z.ltb_spec z 0); [lia|].
      assert (Hn : (5 <= Z.to_nat z)%nat) by lia.
      rewrite (lookup_ge_None_2 SEVERITY_RMAP (Z.to_nat z)) by exact Hn.
      split; auto.
Qed.

(** ** The licence text *)

Lemma split_colon_nonempty (s : jsstring) : split_colon s <> [].
Proof.
  destruct s as [|c s]; simpl; [discriminate|].
  destruct (c =? 58)%N; [discriminate|].
  destruct (split_colon s); discriminate.
Qed.

Lemma Array_join_cons (sep x : jsstring) (l : list jsstring) :
  l <> [] -> Array_join sep (x :: l) = x ++ sep ++ Array_join sep l.
Proof. destruct l; [contradiction|reflexivity]. Qed.

Lemma split_colon_join (s : jsstring) : Array_join (u ":") (split_colon s) = s.
Proof.
  induction s as [|c s IH]; [reflexivity|].
  pose proof (split_colon_nonempty s) as Hne.
  simpl. destruct (N.eqb_spec c 58) as [->|Hc].
  - rewrite (Array_join_cons _ _ _ Hne), IH. reflexivity.
  - destruct (split_colon s) as [|w ws]; [contradiction|].
    destruct ws as [|w' ws].
    + cbn [Array_join] in *. now rewrite IH.
    + rewrite Array_join_cons by discriminate.
      rewrite Array_join_cons in IH by discriminate.
      rewrite <- IH. reflexivity.
Qed.

Lemma split_colon_chunks (s : jsstring) :
  List.Forall (fun w => ~ In 58%N w) (split_colon s).
Proof.
  induction s as [|c s IH]; simpl.
  - constructor; [intros []|constructor].
  - destruct (N.eqb_spec c 58) as [->|Hc].
    + constructor; [intros []|exact IH].
    + destruct (split_colon s) as [|w ws].
      * constructor; [|constructor]. intros [H|[]]. now apply Hc.
      * inversion IH as [|? ? Hw Hws]; subst. constructor; [|exact Hws].
        intros [H|H]; [now apply Hc|now apply Hw].
Qed.

Lemma split_colon_plain (x : jsstring) : ~ In 58%N x -> split_colon x = [x].
Proof.
  induction x as [|c x IH]; intros Hx; [reflexivity|].
  simpl. destruct (N.eqb_spec c 58) as [->|Hc].
  - exfalso. apply Hx. now left.
  - rewrite IH; [reflexivity|]. intros H. apply Hx. now right.
Qed.

Lemma split_colon_app (q x : jsstring) :
  split_colon (q ++ 58%N :: x) = split_colon q ++ split_colon x.
Proof.
  induction q as [|c q IH]; [reflexivity|].
  simpl. rewrite IH. destruct (c =? 58)%N; [reflexivity|].
  pose proof (split_colon_nonempty q) as Hne.
  destruct (split_colon q) as [|w ws]; [contradiction|reflexivity].
Qed.

Lemma last_chunk_In (s : jsstring) : In (List.last (split_colon s) []) (split_colon s).
Proof.
  pose proof (split_colon_nonempty s) as Hne.
  destruct (exists_last Hne) as (l & w & Heq). rewrite Heq.
  rewrite List.last_last. apply in_or_app. right. now left.
Qed.

Lemma trimStart_split (s : jsstring) :
  exists a, s = a ++ trimStart s /\ List.Forall (fun c => is_space c = true) a.
Proof.
  induction s as [|c s (a & Heq & Ha)]; [now exists []|].
  simpl. destruct (is_space c) eqn:Hc.
  - exists (c :: a). split; [simpl; now f_equal|now constructor].
  - now exists [].
Qed.

Lemma trimStart_head (s : jsstring) (c : N) (r : jsstring) :
  trimStart s = c :: r -> is_space c = false.
Proof.
  induction s as [|d s IH]; simpl; [discriminate|].
  destruct (is_space d) eqn:Hd; [exact IH|].
  intros H. injection H as -> _. exact Hd.
Qed.

Lemma trimStart_snoc (l : jsstring) (c : N) :
  is_space c = false -> trimStart (l ++ [c]) = trimStart l ++ [c].
Proof.
  intros Hc. induction l as [|d l IH]; simpl; [now rewrite Hc|].
  destruct (is_space d); [exact IH|reflexivity].
Qed.

Lemma trim_split (s : jsstring) :
  exists a b, s = a ++ trim s ++ b /\
    List.Forall (fun c => is_space c = true) a /\
    List.Forall (fun c => is_space c = true) b /\
    (forall c, head (trim s) = Some c -> is_space c = false) /\
    (forall c, last (trim s) = Some c -> is_space c = false).
Proof.
  destruct (trimStart_split s) as (a & Hs & Ha).
  unfold trim. destruct (trimStart s) as [|c0 s1] eqn:Hs1.
  - exists a, []. simpl. repeat split; auto; discriminate.
  - pose proof (trimStart_head _ _ _ Hs1) as Hc0.
    cbn [rev]. rewrite (trimStart_snoc _ _ Hc0), rev_app_distr. cbn [rev app].
    destruct (trimStart_split (rev s1)) as (b & Hb & Hbs).
    exists a, (rev b). repeat split.
    + rewrite Hs. f_equal. rewrite <- (rev_involutive s1) at 1.
      rewrite Hb at 1. rewrite rev_app_distr. reflexivity.
    + exact Ha.
    + apply List.Forall_rev. exact Hbs.
    + intros c H. cbn in H. now injection H as <-.
    + intros c H. destruct (trimStart (rev s1)) as [|d r] eqn:Hr.
      * cbn in H. now injection H as <-.
      * change (last ([c0] ++ rev (d :: r)) = Some c) in H.
        cbn [rev] in H. rewrite app_assoc, last_snoc in H. injection H as <-.
        exact (trimStart_head _ _ _ Hr).
Qed.

Lemma trim_In (s : jsstring) (c : N) : In c (trim s) -> In c s.
Proof.
  destruct (trim_split s) as (a & b & Hs & _). intros H.
  rewrite Hs. apply in_or_app. right. apply in_or_app. now left.
Qed.

Lemma licenseText_length (ttl : jsstring) : (length (licenseText ttl) <= 20)%nat.
Proof.
  unfold licenseText. change (W 2) with 23. change (Z.to_nat (23 - 4)) with 19%nat.
  destruct (Z.ltb_spec 23 (Z.of_nat (length (trim (List.last (split_colon ttl) []))) + 3)).
  - rewrite length_app, length_take. change (length ELLIPSIS) with 1%nat. lia.
  - lia.
Qed.

Lemma licenseCell_ok (t : Terminal) (lic : License) :
  licenseCell t lic
  = inr ((if pass lic then chalk t COLORS.green CHECK else chalk t COLORS.red (u "X"))
         ++ u " " ++ interpolate (licenseText (title lic))
         ++ str_repeat (u " ") (20 - length (licenseText (title lic)))
         ++ bar t ++ u " ").
Proof.
  unfold licenseCell. pose proof (licenseText_length (title lic)) as Hlen.
  rewrite String_repeat_ok by (change (W 2) with 23; lia). cbn [rbind].
  replace (Z.to_nat (W 2 - Z.of_nat (length (licenseText (title lic))) - 3))
    with (20 - length (licenseText (title lic)))%nat by (change (W 2) with 23; lia).
  reflexivity.
Qed.

(** X6. Splitting a title at its colons loses nothing: the chunks joined
    by colons give the title back, and no chunk holds a colon. *)
Theorem split_colon_roundtrip (s : jsstring) :
  Array_join (u ":") (split_colon s) = s /\
  List.Forall (fun w => ~ In 58%N w) (split_colon s) /\
  split_colon s <> [].
Proof.
  split; [apply split_colon_join|].
  split; [apply split_colon_chunks|apply split_colon_nonempty].
Qed.

(** X7. [trim] removes white space at both ends and nothing else: the
    string is the trimmed one between two runs of white space, and the
    trimmed one neither starts nor ends with white space. *)
Theorem trim_strips_both_ends (s : jsstring) :
  exists a b, s = a ++ trim s ++ b /\
    List.Forall (fun c => is_space c = true) a /\
    List.Forall (fun c => is_space c = true) b /\
    (forall c, head (trim s) = Some c -> is_space c = false) /\
    (forall c, last (trim s) = Some c -> is_space c = false).
Proof. apply trim_split. Qed.

(** X8. The licence text of a row never has more than 20 characters and
    never holds a colon, so the padding of the licence cell is never
    negative and the cell is rendered for every licence. *)
Theorem licenseText_fits (t : Terminal) (lic : License) :
  (length (licenseText (title lic)) <= 20)%nat /\
  ~ In 58%N (licenseText (title lic)) /\
  exists cell, licenseCell t lic = inr cell.
Proof.
  split; [apply licenseText_length|]. split.
  - unfold licenseText.
    assert (Hchunk : ~ In 58%N (trim (List.last (split_colon (title lic)) []))).
    { intros H. apply trim_In in H.
      pose proof (split_colon_chunks (title lic)) as Hall.
      rewrite List.Forall_forall in Hall.
      exact (Hall _ (last_chunk_In (title lic)) H). }
    destruct (_ <? _).
    + intros H. apply in_app_or in H. destruct H as [H|[H|[]]]; [|discriminate H].
      apply Hchunk.
      rewrite <- (take_drop 19 (trim (List.last (split_colon (title lic)) []))).
      apply in_or_app. now left.
    + exact Hchunk.
  - eexists. apply licenseCell_ok.
Qed.

(** X9. Of a title with a qualifier before a colon only what follows the
    last colon is shown: as it is when it has at most 20 characters, and
    otherwise its first 19 characters and an ellipsis. *)
Theorem licenseText_last_segment (q x : jsstring) :
  ~ In 58%N x -> trim x = x ->
  licenseText (q ++ u ":" ++ x)
  = (if (length x <=? 20)%nat then x else take 19 x ++ ELLIPSIS) /\
  licenseText x
  = (if (length x <=? 20)%nat then x else take 19 x ++ ELLIPSIS).
Proof.
  intros Hx Htrim.
  assert (Hlast : List.last (split_colon (q ++ u ":" ++ x)) [] = x).
  { change (u ":" ++ x) with (58%N :: x).
    rewrite split_colon_app, (split_colon_plain x Hx). apply List.last_last. }
  unfold licenseText. rewrite Hlast, (split_colon_plain x Hx). cbn [List.last].
  rewrite Htrim. change (W 2) with 23. change (Z.to_nat (23 - 4)) with 19%nat.
  destruct (Z.ltb_spec 23 (Z.of_nat (length x) + 3));
    destruct (Nat.leb_spec (length x) 20); try lia; split; reflexivity.
Qed.

Lemma licenseText_last_segment_witness :
  licenseText (u "SPDX" ++ u ":" ++ u "MIT")
  = (if (length (u "MIT") <=? 20)%nat then u "MIT" else take 19 (u "MIT") ++ ELLIPSIS) /\
  licenseText (u "MIT")
  = (if (length (u "MIT") <=? 20)%nat then u "MIT" else take 19 (u "MIT") ++ ELLIPSIS).
Proof.
  apply (licenseText_last_segment (u "SPDX") (u "MIT")).
  - vm_compute. intuition discriminate.
  - reflexivity.
Defined.

(** ** When a row is rendered *)

Lemma severityOf_cases (z : Z) :
  (0 <= z <= 4 /\ exists s, severityOf z = inr s) \/
  ((z < 0 \/ 4 < z) /\ severityOf z = inl TypeError).
Proof.
  assert (Hcases : z < 0 \/ z = 0 \/ z = 1 \/ z = 2 \/ z = 3 \/ z = 4 \/ 4 < z) by lia.
  destruct Hcases as [H|[->|[->|[->|[->|[->|H]]]]]];
    try (left; split; [lia|eexists; reflexivity]).
  - right. split; [lia|]. unfold severityOf. destruct (Z.ltb_spec z 0); [reflexivity|lia].
  - right. split; [lia|]. unfold severityOf. destruct (Z.ltb_spec z 0); [lia|].
    assert (Hn : (5 <= Z.to_nat z)%nat) by lia.
    now rewrite (lookup_ge_None_2 SEVERITY_RMAP (Z.to_nat z)) by exact Hn.
Qed.

Lemma riskCell_ok (t : Terminal) (s : Severity) :
  riskCell t s = inr (riskBadge t s ++ u "  " ++ bar t ++ u " ").
Proof. reflexivity. Qed.

Lemma shownBadges_length (t : Terminal) (fs : list Failure) :
  (length (shownBadges t fs) <= 4)%nat.
Proof.
  unfold shownBadges. rewrite length_map.
  exact (List.filter_length_le (fun b : COLORS.t * nat * string => (0 <? b.1.2)%nat)
           (buckets fs)).
Qed.

Lemma securityCell_ok (t : Terminal) (fs : list Failure) :
  securityCell t fs
  = inr (aggregateGlyph t fs ++ concat (shownBadges t fs)
         ++ str_repeat (u " ") (11 - 2 * length (shownBadges t fs)) ++ bar t).
Proof.
  unfold securityCell. destruct (securityBadges_shown t fs) as [-> ->].
  pose proof (shownBadges_length t fs) as Hlen.
  rewrite String_repeat_ok by (change (W 3) with 15; lia). cbn [rbind].
  replace (Z.to_nat (W 3 - 2 - Z.of_nat (S (length (shownBadges t fs))) * 2))
    with (11 - 2 * length (shownBadges t fs))%nat by (change (W 3) with 15; lia).
  now rewrite <- !app_assoc.
Qed.

Lemma moduleRow_published (t : Terminal) (pkg : PackageResult)
    (lic : License) (fs : list Failure) (s : Severity) :
  published pkg = true -> license pkg = Some lic -> failures pkg = Some fs ->
  severityOf (maxSeverity pkg) = inr s ->
  moduleRow t pkg
  = if Z.of_nat (length (moduleName pkg)) <=? W 0
    then inr ((bar t ++ u " " ++ interpolate (moduleName pkg) ++ u " "
               ++ str_repeat (u " ") (Z.to_nat (W 0) - length (moduleName pkg))
               ++ bar t ++ u " ")
              ++ (riskBadge t s ++ u "  " ++ bar t ++ u " ")
              ++ ((if pass lic then chalk t COLORS.green CHECK
                   else chalk t COLORS.red (u "X"))
                  ++ u " " ++ interpolate (licenseText (title lic))
                  ++ str_repeat (u " ") (20 - length (licenseText (title lic)))
                  ++ bar t ++ u " ")
              ++ (aggregateGlyph t fs ++ concat (shownBadges t fs)
                  ++ str_repeat (u " ") (11 - 2 * length (shownBadges t fs)) ++ bar t))
    else inl RangeError.
Proof.
  intros Hpub Hlic Hfs Hsev. unfold moduleRow.
  rewrite Hpub, Hlic, Hfs. cbn [required rbind]. rewrite Hsev. cbn [rbind].
  destruct (Z.leb_spec (Z.of_nat (length (moduleName pkg))) (W 0)) as [Hfit|Hlong].
  - rewrite (labelCell_fits t _ Hfit), riskCell_ok, licenseCell_ok, securityCell_ok.
    reflexivity.
  - now rewrite (labelCell_overflow t _ Hlong).
Qed.

Lemma moduleRow_unpublished (t : Terminal) (pkg : PackageResult) :
  published pkg = false ->
  moduleRow t pkg
  = if Z.of_nat (length (moduleName pkg)) <=? W 0
    then inr ((bar t ++ u " " ++ interpolate (moduleName pkg) ++ u " "
               ++ str_repeat (u " ") (Z.to_nat (W 0) - length (moduleName pkg))
               ++ bar t ++ u " ")
              ++ blankCell t 11 ++ blankCell t 23 ++ blankCell t 15)
    else inl RangeError.
Proof.
  intros Hpub. unfold moduleRow. rewrite Hpub.
  destruct (Z.leb_spec (Z.of_nat (length (moduleName pkg))) (W 0)) as [Hfit|Hlong].
  - now rewrite (labelCell_fits t _ Hfit), blankCells_value.
  - now rewrite (labelCell_overflow t _ Hlong).
Qed.

(** X10. The label of the first column fits its 40 characters exactly when
    name, separator and version together do, or when the name has at least
    26 characters and the version at most 8. Shortening a name of fewer
    than 26 characters only adds the three dots. *)
Theorem moduleName_fits_iff (pkg : PackageResult) :
  (Z.of_nat (length (moduleName pkg)) <= W 0 <->
   (length (name pkg) + 3 + length (version pkg) <= 40)%nat \/
   ((26 <= length (name pkg))%nat /\ (length (version pkg) <= 8)%nat)) /\
  ((40 < length (name pkg) + 3 + length (version pkg))%nat ->
   (length (name pkg) < 26)%nat ->
   length (moduleName pkg) = (length (name pkg) + 3 + length (version pkg) + 3)%nat).
Proof.
  unfold moduleName. rewrite !length_app. change (length (u " @ ")) with 3%nat.
  change (W 0) with 40. change (Z.to_nat (40 - 14)) with 26%nat.
  destruct (Z.ltb_spec 40 (Z.of_nat (length (name pkg) + (3 + length (version pkg)))))
    as [Hlong|Hfit].
  - rewrite !length_app, length_take. change (length (u "... @ ")) with 6%nat.
    split; [split; lia|lia].
  - rewrite !length_app. change (length (u " @ ")) with 3%nat. split; [split; lia|lia].
Qed.

Lemma moduleName_fits_iff_witness :
  length (moduleName P7) = (length (name P7) + 3 + length (version P7) + 3)%nat.
Proof.
  destruct (moduleName_fits_iff P7) as [_ H]. apply H; vm_compute; lia.
Defined.

(** Settles the outcome of a row once the row has been computed. *)
Ltac row_outcome :=
  repeat split; intros;
  repeat match goal with
         | H : _ /\ _ |- _ => destruct H
         | H : exists _, _ |- _ => destruct H
         | H : true = true -> _ |- _ => specialize (H eq_refl)
         | H : _ \/ _ |- _ => destruct H
         end;
  try discriminate; try congruence; try lia; eauto.

(** X11. What becomes of a row. It is rendered exactly when the label fits
    and, for a published record, licence and failures are there and
    [maxSeverity] lies in 0..4. It ends in TypeError exactly when a
    published record lacks one of these, whatever the label, and in
    RangeError exactly when the label alone is at fault. *)
Theorem moduleRow_outcome (t : Terminal) (pkg : PackageResult) :
  ((exists line, moduleRow t pkg = inr line) <->
   Z.of_nat (length (moduleName pkg)) <= W 0 /\
   (published pkg = true ->
    license pkg <> None /\ failures pkg <> None /\ 0 <= maxSeverity pkg <= 4)) /\
  (moduleRow t pkg = inl TypeError <->
   published pkg = true /\
   (license pkg = None \/ failures pkg = None
    \/ maxSeverity pkg < 0 \/ 4 < maxSeverity pkg)) /\
  (moduleRow t pkg = inl RangeError <->
   W 0 < Z.of_nat (length (moduleName pkg)) /\
   (published pkg = true ->
    license pkg <> None /\ failures pkg <> None /\ 0 <= maxSeverity pkg <= 4)) /\
  moduleRow t pkg <> inl Error.
Proof.
  destruct (published pkg) eqn:Hpub.
  - destruct (license pkg) as [lic|] eqn:Hlic;
      [destruct (failures pkg) as [fs|] eqn:Hfs;
       [destruct (severityOf_cases (maxSeverity pkg)) as [[Hr [s Hs]]|[Hr Hs]]|]|].
    + rewrite (moduleRow_published t pkg lic fs s Hpub Hlic Hfs Hs).
      destruct (Z.leb_spec (Z.of_nat (length (moduleName pkg))) (W 0)); row_outcome.
    + unfold moduleRow. rewrite Hpub, Hlic, Hfs. cbn [required rbind]. rewrite Hs.
      cbn [rbind]. row_outcome.
    + unfold moduleRow. rewrite Hpub, Hlic, Hfs. cbn [required rbind]. row_outcome.
    + unfold moduleRow. rewrite Hpub, Hlic. cbn [required rbind]. row_outcome.
  - rewrite (moduleRow_unpublished t pkg Hpub).
    destruct (Z.leb_spec (Z.of_nat (length (moduleName pkg))) (W 0)); row_outcome.
Qed.

(** ** Columns on a terminal without colours *)

Lemma chalk_plain (c : COLORS.t) (x : jsstring) : chalk plain c x = x.
Proof. destruct x as [|a x]; [reflexivity|]. cbn. now rewrite app_nil_r. Qed.

Lemma length_spaces (n : nat) : length (str_repeat (u " ") n) = n.
Proof. rewrite length_str_repeat. change (length (u " ")) with 1%nat. lia. Qed.

Lemma length_interpolate (s : jsstring) :
  (length (interpolate s) + separators s = length s)%nat.
Proof.
  unfold interpolate, separators. induction s as [|c s IH]; [reflexivity|].
  cbn [List.filter]. destruct (is_separator c); cbn [negb length]; lia.
Qed.

(** X12. Without colours, the row of a record that is not published has
    its bars under the corners and junctions of the top border but for
    the separators U+2028 and U+2029 in its label: the stretches between
    the bars are 42 less the number of such separators, 12, 23 and 15
    wide, against 42, 12, 23 and 15 in the border. *)
Theorem unpublished_row_aligned (pkg : PackageResult) :
  published pkg = false ->
  Z.of_nat (length (moduleName pkg)) <= W 0 ->
  exists a b c d,
    moduleRow plain pkg
    = inr (BOX_V ++ a ++ BOX_V ++ b ++ BOX_V ++ c ++ BOX_V ++ d ++ BOX_V) /\
    (length a + separators (moduleName pkg) = 42)%nat /\
    length b = 12%nat /\ length c = 23%nat /\ length d = 15%nat /\
    topBorder plain
    = BOX_DR ++ str_repeat BOX_H 42 ++ BOX_DH ++ str_repeat BOX_H 12
      ++ BOX_DH ++ str_repeat BOX_H 23 ++ BOX_DH ++ str_repeat BOX_H 15 ++ BOX_DL.
Proof.
  intros Hpub Hfit. rewrite (moduleRow_unpublished plain pkg Hpub).
  destruct (Z.leb_spec (Z.of_nat (length (moduleName pkg))) (W 0)) as [_|]; [|lia].
  exists (u " " ++ interpolate (moduleName pkg) ++ u " "
          ++ str_repeat (u " ") (Z.to_nat (W 0) - length (moduleName pkg))),
         (u " " ++ str_repeat (u " ") 11),
         (str_repeat (u " ") 23), (str_repeat (u " ") 15).
  split; [|split; [|split; [|split; [|split]]]].
  - unfold blankCell, bar. rewrite !chalk_plain, <- !app_assoc. reflexivity.
  - rewrite !length_app, length_spaces. change (length (u " ")) with 1%nat.
    pose proof (length_interpolate (moduleName pkg)).
    change (W 0) with 40 in *. lia.
  - reflexivity.
  - reflexivity.
  - reflexivity.
  - reflexivity.
Qed.

Lemma unpublished_row_aligned_witness :
  exists a b c d,
    moduleRow plain P9
    = inr (BOX_V ++ a ++ BOX_V ++ b ++ BOX_V ++ c ++ BOX_V ++ d ++ BOX_V) /\
    (length a + separators (moduleName P9) = 42)%nat /\
    length b = 12%nat /\ length c = 23%nat /\ length d = 15%nat /\
    topBorder plain
    = BOX_DR ++ str_repeat BOX_H 42 ++ BOX_DH ++ str_repeat BOX_H 12
      ++ BOX_DH ++ str_repeat BOX_H 23 ++ BOX_DH ++ str_repeat BOX_H 15 ++ BOX_DL.
Proof.
  apply (unpublished_row_aligned P9); [reflexivity|vm_compute; discriminate].
Defined.

(** X13. Without colours, the label cell and the licence cell of a row
    that is rendered are 45 and 24 code units wide, less one for every
    separator U+2028 or U+2029 in the label and in the licence text:
    such a code unit is counted by the padding but not printed. *)
Theorem published_cells_width (pkg : PackageResult) (lic : License) :
  Z.of_nat (length (moduleName pkg)) <= W 0 ->
  (exists c0, labelCell plain (moduleName pkg) = inr c0 /\
              (length c0 + separators (moduleName pkg) = 45)%nat) /\
  (exists c2, licenseCell plain lic = inr c2 /\
              (length c2 + separators (licenseText (title lic)) = 24)%nat).
Proof.
  intros Hfit. split.
  - eexists. split; [apply (labelCell_fits plain _ Hfit)|].
    unfold bar. rewrite !chalk_plain, !length_app, length_spaces.
    change (length BOX_V) with 1%nat. change (length (u " ")) with 1%nat.
    pose proof (length_interpolate (moduleName pkg)).
    change (W 0) with 40 in *. lia.
  - eexists. split; [apply licenseCell_ok|].
    pose proof (licenseText_length (title lic)) as Hlen.
    pose proof (length_interpolate (licenseText (title lic))).
    unfold bar. rewrite !chalk_plain, !length_app, length_spaces.
    change (length BOX_V) with 1%nat. change (length (u " ")) with 1%nat.
    destruct (pass lic);
      [change (length CHECK) with 1%nat|change (length (u "X")) with 1%nat]; lia.
Qed.

Lemma published_cells_width_witness :
  (exists c0, labelCell plain (moduleName P9) = inr c0 /\
              (length c0 + separators (moduleName P9) = 45)%nat) /\
  (exists c2, licenseCell plain MIT = inr c2 /\
              (length c2 + separators (licenseText (title MIT)) = 24)%nat).
Proof.
  apply (published_cells_width P9 MIT). vm_compute. discriminate.
Defined.

(** ** The Security cell *)

Lemma filter_isSecurity_idem (fs : list Failure) :
  List.filter isSecurity (List.filter isSecurity fs) = List.filter isSecurity fs.
Proof.
  induction fs as [|f fs IH]; [reflexivity|].
  cbn [List.filter]. destruct (isSecurity f) eqn:Hf; [|exact IH].
  cbn [List.filter]. now rewrite Hf, IH.
Qed.

Lemma countIn_filter (s : Severity) (fs : list Failure) :
  countIn s (List.filter isSecurity fs) = countIn s fs.
Proof. unfold countIn. now rewrite filter_isSecurity_idem. Qed.

Lemma countIn_none (s : Severity) (fs : list Failure) :
  List.filter isSecurity fs = [] -> countIn s fs = 0%nat.
Proof. unfold countIn. now intros ->. Qed.

(** X14. Failures of other groups never show in the Security cell: the
    cell of a list of failures is the cell of its security failures. *)
Theorem securityCell_only_security (t : Terminal) (fs : list Failure) :
  securityCell t fs = securityCell t (List.filter isSecurity fs) /\
  countFailures fs = countFailures (List.filter isSecurity fs).
Proof.
  assert (Hcount : countFailures fs = countFailures (List.filter isSecurity fs)).
  { rewrite !countFailures_counts, !countIn_filter. reflexivity. }
  split; [|exact Hcount].
  unfold securityCell. now rewrite Hcount.
Qed.

(** X15. A record without security failure shows the check mark, a zero
    and no badge in its Security cell, whatever else it failed. *)
Theorem securityCell_clean (t : Terminal) (fs : list Failure) :
  List.filter isSecurity fs = [] ->
  securityCell t fs
  = inr (chalk t COLORS.green CHECK ++ u " 0" ++ str_repeat (u " ") 11 ++ bar t).
Proof.
  intros Hnone. rewrite securityCell_ok.
  unfold aggregateGlyph, shownBadges, buckets.
  rewrite !(countIn_none _ fs Hnone). cbn. now rewrite <- !app_assoc.
Qed.

Lemma securityCell_clean_witness :
  securityCell plain [compliance HIGH; compliance LOW]
  = inr (chalk plain COLORS.green CHECK ++ u " 0" ++ str_repeat (u " ") 11 ++ bar plain).
Proof.
  apply (securityCell_clean plain [compliance HIGH; compliance LOW]). reflexivity.
Defined.

Lemma securityPart_explicit (t : Terminal) (fs : list Failure) :
  aggregateGlyph t fs ++ concat (shownBadges t fs)
  ++ str_repeat (u " ") (11 - 2 * length (shownBadges t fs)) ++ bar t
  = (if (countIn CRITICAL fs + countIn HIGH fs + countIn MEDIUM fs
              + countIn LOW fs =? 0)%nat
          then chalk t COLORS.green CHECK ++ u " 0"
          else chalk t COLORS.red (u "X") ++ u " ")
         ++ (if (0 <? countIn CRITICAL fs)%nat
             then chalk t COLORS.red (dec (countIn CRITICAL fs) ++ u "C") ++ u " "
             else [])
         ++ (if (0 <? countIn HIGH fs)%nat
             then chalk t COLORS.orange (dec (countIn HIGH fs) ++ u "H") ++ u " "
             else [])
         ++ (if (0 <? countIn MEDIUM fs)%nat
             then chalk t COLORS.yellow (dec (countIn MEDIUM fs) ++ u "M") ++ u " "
             else [])
         ++ (if (0 <? countIn LOW fs)%nat
             then chalk t COLORS.light1 (dec (countIn LOW fs) ++ u "L") ++ u " "
             else [])
         ++ str_repeat (u " ")
              (11 - 2 * length (List.filter (fun s => (0 <? countIn s fs)%nat)
                                  [CRITICAL; HIGH; MEDIUM; LOW]))
         ++ chalk t COLORS.light1 BOX_V.
Proof.
  unfold aggregateGlyph, shownBadges, buckets, badge, bar.
  cbn [List.filter fst snd].
  destruct (0 <? countIn CRITICAL fs)%nat, (0 <? countIn HIGH fs)%nat,
           (0 <? countIn MEDIUM fs)%nat, (0 <? countIn LOW fs)%nat;
    cbn [map concat fst snd length app]; rewrite ?app_nil_r, <- ?app_assoc; reflexivity.
Qed.

(** X21. The Security cell is rendered for every list of failures: it is
    the check mark with a zero, or the cross, then for each of CRITICAL,
    HIGH, MEDIUM and LOW with a security failure its count and letter,
    then 11 blanks less two for every such badge, then the bar. There are
    at most four badges, and there is none, and the check mark, exactly
    when the four counts add up to zero. *)
Theorem securityCell_badge_count (t : Terminal) (fs : list Failure) :
  securityCell t fs
  = inr ((if (countIn CRITICAL fs + countIn HIGH fs + countIn MEDIUM fs
              + countIn LOW fs =? 0)%nat
          then chalk t COLORS.green CHECK ++ u " 0"
          else chalk t COLORS.red (u "X") ++ u " ")
         ++ (if (0 <? countIn CRITICAL fs)%nat
             then chalk t COLORS.red (dec (countIn CRITICAL fs) ++ u "C") ++ u " "
             else [])
         ++ (if (0 <? countIn HIGH fs)%nat
             then chalk t COLORS.orange (dec (countIn HIGH fs) ++ u "H") ++ u " "
             else [])
         ++ (if (0 <? countIn MEDIUM fs)%nat
             then chalk t COLORS.yellow (dec (countIn MEDIUM fs) ++ u "M") ++ u " "
             else [])
         ++ (if (0 <? countIn LOW fs)%nat
             then chalk t COLORS.light1 (dec (countIn LOW fs) ++ u "L") ++ u " "
             else [])
         ++ str_repeat (u " ")
              (11 - 2 * length (List.filter (fun s => (0 <? countIn s fs)%nat)
                                  [CRITICAL; HIGH; MEDIUM; LOW]))
         ++ chalk t COLORS.light1 BOX_V) /\
  (length (List.filter (fun s => (0 <? countIn s fs)%nat)
             [CRITICAL; HIGH; MEDIUM; LOW]) <= 4)%nat /\
  (length (List.filter (fun s => (0 <? countIn s fs)%nat)
             [CRITICAL; HIGH; MEDIUM; LOW]) = 0%nat <->
   (countIn CRITICAL fs + countIn HIGH fs + countIn MEDIUM fs + countIn LOW fs = 0)%nat).
Proof.
  split; [rewrite securityCell_ok, securityPart_explicit; reflexivity|].
  cbn [List.filter].
  destruct (Nat.ltb_spec 0 (countIn CRITICAL fs)), (Nat.ltb_spec 0 (countIn HIGH fs)),
           (Nat.ltb_spec 0 (countIn MEDIUM fs)), (Nat.ltb_spec 0 (countIn LOW fs));
    cbn [length]; split; try lia; split; intros Hz; try discriminate Hz; lia.
Qed.

(** ** The whole table *)

Lemma closingRule_last (t : Terminal) (dividers : bool) (len ind : nat) :
  S ind = len -> closingRule t dividers len ind = [bottomBorder t].
Proof.
  intros H. unfold closingRule.
  destruct (Z.eqb_spec (Z.of_nat ind) (Z.of_nat len - 1)); [reflexivity|lia].
Qed.

Lemma closingRule_inner (t : Terminal) (dividers : bool) (len ind : nat) :
  (S ind < len)%nat ->
  closingRule t dividers len ind = if dividers then [divider t] else [].
Proof.
  intros H. unfold closingRule.
  destruct (Z.eqb_spec (Z.of_nat ind) (Z.of_nat len - 1)); [lia|reflexivity].
Qed.

Lemma forEach_rendered (t : Terminal) (dividers : bool) (len : nat)
    (rows : list PackageResult) (ind : nat) :
  (forall pkg, In pkg rows -> exists line, moduleRow t pkg = inr line) ->
  forEach (renderPackage t dividers len) rows ind
  = (tableBody t dividers len ind (map (rowText t) rows), inr tt).
Proof.
  revert ind. induction rows as [|x rows IH]; intros ind Hall; [reflexivity|].
  destruct (Hall x (or_introl eq_refl)) as [line Hx].
  cbn [forEach map tableBody]. unfold rowText at 1. rewrite Hx.
  rewrite (renderPackage_ok _ _ _ _ _ _ Hx).
  rewrite (IH (S ind)) by (intros pkg H; apply Hall; now right).
  unfold io_bind. reflexivity.
Qed.

Lemma forEach_first_error (t : Terminal) (dividers : bool) (len : nat)
    (pre post : list PackageResult) (pkg : PackageResult) (e : exn) (ind : nat) :
  (forall p, In p pre -> exists line, moduleRow t p = inr line) ->
  moduleRow t pkg = inl e ->
  forEach (renderPackage t dividers len) (pre ++ pkg :: post) ind
  = (tableBody t dividers len ind (map (rowText t) pre), inl e).
Proof.
  revert ind. induction pre as [|x pre IH]; intros ind Hall Hpkg.
  - cbn [app forEach map tableBody]. now rewrite (renderPackage_throws _ _ _ _ _ _ Hpkg).
  - destruct (Hall x (or_introl eq_refl)) as [line Hx].
    cbn [app forEach map tableBody]. unfold rowText at 1. rewrite Hx.
    rewrite (renderPackage_ok _ _ _ _ _ _ Hx).
    rewrite (IH (S ind)) by (try (intros p H; apply Hall; now right); exact Hpkg).
    unfold io_bind. reflexivity.
Qed.

Lemma tableBody_shape (t : Terminal) (dividers : bool) (len ind : nat)
    (lines : list jsstring) :
  lines <> [] -> (ind + length lines)%nat = len ->
  last (tableBody t dividers len ind lines) = Some (bottomBorder t) /\
  length (tableBody t dividers len ind lines)
  = (if dividers then 2 * length lines else S (length lines))%nat.
Proof.
  revert ind. induction lines as [|l lines IH]; intros ind Hne Hlen; [contradiction|].
  destruct lines as [|l' lines].
  - cbn [tableBody length]. rewrite closingRule_last by (cbn in Hlen; lia).
    split; [reflexivity|now destruct dividers].
  - destruct (IH (S ind)) as [Hlast Hcount]; [discriminate|cbn [length] in *; lia|].
    change (tableBody t dividers len ind (l :: l' :: lines))
      with (l :: closingRule t dividers len ind
              ++ tableBody t dividers len (S ind) (l' :: lines)).
    rewrite closingRule_inner by (cbn [length] in Hlen; lia).
    split.
    + rewrite app_comm_cons, last_app, Hlast. reflexivity.
    + cbn [length]. rewrite length_app, Hcount. cbn [length].
      destruct dividers; cbn [length]; lia.
Qed.

Lemma moduleList_unfold (t : Terminal) (h : heap) (report : ref) (dividers : bool) :
  (moduleList t h report dividers).2
  = io_bind (L (headerLine t))
      (fun _ => io_bind (L (topBorder t))
         (fun _ => forEach
                     (renderPackage t dividers
                        (length (Array_sort moduleSort_compare (h report))))
                     (Array_sort moduleSort_compare (h report)) 0%nat)).
Proof.
  unfold moduleList.
  change (moduleSort h report) with ((moduleSort h report).1, (moduleSort h report).2).
  cbv iota beta. cbn [snd moduleSort fst]. now rewrite fn_lookup_insert.
Qed.

(** X16. When every row is rendered, [moduleList] prints the header, the
    top border and then, in sorted order, each row followed by a divider
    if dividers were asked for, the last row by the bottom border instead;
    it ends without error. A table with rows therefore ends in the bottom
    border and has 2 + 2n lines with dividers and 3 + n without. *)
Theorem moduleList_table (t : Terminal) (h : heap) (report : ref) (dividers : bool) :
  (forall pkg, In pkg (h report) -> exists line, moduleRow t pkg = inr line) ->
  (moduleList t h report dividers).2
  = (headerLine t :: topBorder t
     :: tableBody t dividers (length (h report)) 0
          (map (rowText t) (Array_sort moduleSort_compare (h report))),
     inr tt) /\
  (h report <> [] ->
   last (moduleList t h report dividers).2.1 = Some (bottomBorder t) /\
   length (moduleList t h report dividers).2.1
   = (if dividers then 2 + 2 * length (h report) else 3 + length (h report))%nat).
Proof.
  intros Hall.
  pose proof (Array_sort_Permutation moduleSort_compare (h report)) as Hperm.
  assert (Hout : (moduleList t h report dividers).2
                 = (headerLine t :: topBorder t
                    :: tableBody t dividers (length (h report)) 0
                         (map (rowText t) (Array_sort moduleSort_compare (h report))),
                    inr tt)).
  { rewrite moduleList_unfold, forEach_rendered.
    - rewrite (Permutation_length Hperm). reflexivity.
    - intros pkg Hpkg. apply Hall. now apply (Permutation_in _ Hperm). }
  split; [exact Hout|]. intros Hne. rewrite Hout. cbn [fst].
  destruct (tableBody_shape t dividers (length (h report)) 0
              (map (rowText t) (Array_sort moduleSort_compare (h report))))
    as [Hlast Hcount].
  - intros Hnil. apply Hne. apply map_eq_nil in Hnil.
    rewrite Hnil in Hperm. now apply Permutation_nil in Hperm.
  - rewrite length_map. now rewrite (Permutation_length Hperm).
  - split.
    + rewrite !last_cons, Hlast. reflexivity.
    + cbn [length]. rewrite Hcount, length_map, (Permutation_length Hperm).
      destruct dividers; lia.
Qed.

Lemma moduleList_table_witness :
  last (moduleList plain (store [P1; P4; P2]) 0%nat true).2.1 = Some (bottomBorder plain) /\
  length (moduleList plain (store [P1; P4; P2]) 0%nat true).2.1 = 8%nat.
Proof.
  destruct (moduleList_table plain (store [P1; P4; P2]) 0%nat true) as [_ H].
  - intros pkg [<-|[<-|[<-|[]]]]; eexists; vm_compute; reflexivity.
  - apply H. discriminate.
Defined.

(** X17. When a row fails, [moduleList] ends with the error of the first
    such row in sorted order: the rows before it are printed with their
    dividers, nothing is printed after them, neither the later rows nor
    the bottom border. *)
Theorem moduleList_first_error (t : Terminal) (h : heap) (report : ref)
    (dividers : bool) (pre post : list PackageResult) (pkg : PackageResult) (e : exn) :
  Array_sort moduleSort_compare (h report) = pre ++ pkg :: post ->
  (forall p, In p pre -> exists line, moduleRow t p = inr line) ->
  moduleRow t pkg = inl e ->
  (moduleList t h report dividers).2
  = (headerLine t :: topBorder t
     :: tableBody t dividers (length (h report)) 0 (map (rowText t) pre),
     inl e) /\
  tableBody t dividers (length (h report)) 0 (map (rowText t) pre)
  = concat (map (fun p => rowText t p :: (if dividers then [divider t] else [])) pre).
Proof.
  intros Hsorted Hpre Hpkg.
  pose proof (Array_sort_Permutation moduleSort_compare (h report)) as Hperm.
  assert (Hlen : length (h report) = (length pre + S (length post))%nat).
  { rewrite <- (Permutation_length Hperm), Hsorted, length_app. reflexivity. }
  split.
  - rewrite moduleList_unfold, Hsorted, (forEach_first_error _ _ _ _ _ _ e _ Hpre Hpkg).
    rewrite <- Hsorted, (Permutation_length Hperm). reflexivity.
  - assert (Hgen : forall ind, (ind + length pre < length (h report))%nat ->
              tableBody t dividers (length (h report)) ind (map (rowText t) pre)
              = concat (map (fun p => rowText t p
                                      :: (if dividers then [divider t] else [])) pre)).
    { clear Hpre Hsorted Hlen. induction pre as [|x pre IH]; intros ind Hind; [reflexivity|].
      cbn [map tableBody concat length] in *.
      rewrite closingRule_inner by lia. rewrite IH by lia. reflexivity. }
    apply Hgen. lia.
Qed.

Lemma moduleList_first_error_witness :
  (moduleList plain (store [P1; P5; P2]) 0%nat false).2
  = (headerLine plain :: topBorder plain
     :: tableBody plain false 3 0 (map (rowText plain) [P2; P1]),
     inl RangeError).
Proof.
  destruct (moduleList_first_error plain (store [P1; P5; P2]) 0%nat false
              [P2; P1] [] P5 RangeError) as [H _].
  - reflexivity.
  - intros p [<-|[<-|[]]]; eexists; vm_compute; reflexivity.
  - reflexivity.
  - exact H.
Defined.

(** ** The summary and the order of the records *)

Lemma severityCount_Permutation (s : Severity) (r r' : list PackageResult) :
  Permutation r r' -> severityCount s r = severityCount s r'.
Proof.
  induction 1 as [|x r r' _ IH|x y r|r r' r'' _ IH1 _ IH2].
  - reflexivity.
  - rewrite !severityCount_cons. now rewrite IH.
  - rewrite !severityCount_cons. lia.
  - now rewrite IH1.
Qed.

Lemma affected_set (r : list PackageResult) :
  length (affectedModules r)
  = size (list_to_set (map name (List.filter hasSecurityFailure r)) : gset jsstring).
Proof.
  unfold affectedModules.
  rewrite <- (size_list_to_set (C := gset jsstring)) by apply NoDup_remove_dups.
  f_equal. apply set_eq. intros x.
  now rewrite !elem_of_list_to_set, elem_of_remove_dups.
Qed.

Lemma affected_Permutation (r r' : list PackageResult) :
  Permutation r r' -> length (affectedModules r) = length (affectedModules r').
Proof.
  intros Hperm. rewrite !affected_set. f_equal.
  induction Hperm as [|x r r' _ IH|x y r|r r' r'' _ IH1 _ IH2].
  - reflexivity.
  - cbn [List.filter]. destruct (hasSecurityFailure x); [|exact IH].
    cbn [map list_to_set]. now rewrite IH.
  - cbn [List.filter].
    destruct (hasSecurityFailure x), (hasSecurityFailure y); cbn [map list_to_set];
      try reflexivity. set_solver.
  - now rewrite IH1.
Qed.

(** X18. The summary does not depend on the order of the records: two
    reports with the same records give the same five lines, so it is the
    same before and after [moduleSort]. *)
Theorem shortVulnerabilityList_Permutation (t : Terminal) (r r' : list PackageResult) :
  Permutation r r' ->
  shortVulnerabilityList t r = shortVulnerabilityList t r' /\
  shortVulnerabilityList t (Array_sort moduleSort_compare r) = shortVulnerabilityList t r.
Proof.
  assert (Hgen : forall a b, Permutation a b ->
                             shortVulnerabilityList t a = shortVulnerabilityList t b).
  { intros a b Hperm. rewrite !shortVulnerabilityList_lines. unfold summaryLines.
    rewrite !(severityCount_Permutation _ a b Hperm).
    now rewrite (affected_Permutation a b Hperm). }
  intros Hperm. split; [now apply Hgen|].
  apply Hgen, Array_sort_Permutation.
Qed.

Lemma shortVulnerabilityList_Permutation_witness :
  shortVulnerabilityList plain [P1; P2; P3] = shortVulnerabilityList plain [P3; P2; P1].
Proof.
  apply (shortVulnerabilityList_Permutation plain [P1; P2; P3] [P3; P2; P1]).
  apply (Permutation_trans (l' := [P2; P3; P1])).
  - apply (Permutation_cons_app [P2; P3] [] P1). reflexivity.
  - apply perm_swap.
Defined.

Lemma length_remove_dups (l : list jsstring) : (length (remove_dups l) <= length l)%nat.
Proof.
  induction l as [|x l IH]; [reflexivity|].
  cbn [remove_dups]. destruct (decide_rel elem_of x l); cbn [length]; lia.
Qed.

Lemma remove_dups_nil (l : list jsstring) : remove_dups l = [] <-> l = [].
Proof.
  split; [|now intros ->]. destruct l as [|x l]; [reflexivity|]. intros H.
  assert (Hx : x ∈ remove_dups (x :: l)) by (apply elem_of_remove_dups; now left).
  rewrite H in Hx. now apply not_elem_of_nil in Hx.
Qed.

Lemma hasSecurityFailure_filter (pkg : PackageResult) :
  hasSecurityFailure pkg = false
  <-> List.filter isSecurity (default [] (failures pkg)) = [].
Proof.
  unfold hasSecurityFailure. induction (default [] (failures pkg)) as [|f fs IH].
  - now split.
  - cbn [existsb List.filter]. destruct (isSecurity f); cbn [orb].
    + split; discriminate.
    + exact IH.
Qed.

Lemma no_affected_iff (r : list PackageResult) :
  List.filter hasSecurityFailure r = [] <-> securityFailures r = [].
Proof.
  unfold securityFailures. induction r as [|pkg r IH]; [now split|].
  cbn [List.filter flat_map].
  destruct (hasSecurityFailure pkg) eqn:Hpkg.
  - split; [discriminate|]. intros H. apply app_eq_nil in H. destruct H as [H _].
    apply hasSecurityFailure_filter in H. congruence.
  - apply hasSecurityFailure_filter in Hpkg. rewrite Hpkg. exact IH.
Qed.

(** X19. The two figures of the headline hang together: the number of
    modules is zero exactly when the report holds no security failure at
    all, it never exceeds the number of records, and a total above zero
    always comes with at least one module. *)
Theorem headline_figures (r : list PackageResult) :
  (size (AFFECTED (tally r)) = 0%nat <-> securityFailures r = []) /\
  (size (AFFECTED (tally r)) <= length r)%nat /\
  (vulnerabilityCount (tally r) <= length (securityFailures r))%nat /\
  ((0 < vulnerabilityCount (tally r))%nat -> (0 < size (AFFECTED (tally r)))%nat).
Proof.
  assert (Hzero : size (AFFECTED (tally r)) = 0%nat <-> securityFailures r = []).
  { rewrite size_affected. unfold affectedModules.
    rewrite length_zero_iff_nil, remove_dups_nil.
    rewrite <- no_affected_iff. split.
    - apply map_eq_nil.
    - now intros ->. }
  assert (Htotal : (vulnerabilityCount (tally r) <= length (securityFailures r))%nat).
  { unfold vulnerabilityCount, tally.
    destruct (tally_counts r netSecurity0) as (-> & -> & -> & -> & _).
    cbn [nLOW nMEDIUM nHIGH nCRITICAL netSecurity0]. unfold severityCount.
    pose proof (bucketed_length (securityFailures r)) as Hb.
    pose proof (List.filter_length_le
                  (fun f => negb (bool_decide (severity f = NONE))) (securityFailures r)).
    lia. }
  split; [exact Hzero|]. split; [|split; [exact Htotal|]].
  - rewrite size_affected. unfold affectedModules.
    pose proof (length_remove_dups (map name (List.filter hasSecurityFailure r))) as H1.
    rewrite length_map in H1.
    pose proof (List.filter_length_le hasSecurityFailure r). lia.
  - intros Hpos.
    destruct (Nat.eq_dec (size (AFFECTED (tally r))) 0%nat) as [H0|H0]; [|lia].
    apply Hzero in H0. rewrite H0 in Htotal. cbn [length] in Htotal. lia.
Qed.

Lemma headline_figures_witness : (0 < size (AFFECTED (tally [P1; P2])))%nat.
Proof.
  destruct (headline_figures [P1; P2]) as (_ & _ & _ & H).
  apply H. vm_compute. lia.
Defined.

(** ** The name of the report file *)

Lemma u_inj (a b : string) : u a = u b -> a = b.
Proof.
  unfold u. intros H.
  rewrite <- (string_of_list_ascii_of_string a), <- (string_of_list_ascii_of_string b).
  f_equal. revert H. generalize (list_ascii_of_string a) (list_ascii_of_string b).
  intros l. induction l as [|x l IH]; intros [|y l'] H; try discriminate H.
  - reflexivity.
  - cbn [map] in H. injection H as Hxy Hl. f_equal.
    + now rewrite <- (ascii_N_embedding x), <- (ascii_N_embedding y), Hxy.
    + now apply IH.
Qed.

Lemma decZ_inj (z z' : Z) : decZ z = decZ z' -> z = z'.
Proof.
  unfold decZ. intros H. apply u_inj in H.
  apply DecimalZ.to_int_inj.
  assert (Hnil : forall x, Z.to_int x <> Decimal.Pos Decimal.Nil
                           /\ Z.to_int x <> Decimal.Neg Decimal.Nil).
  { intros [|q|q]; cbn; split; try discriminate;
      intros Hq; injection Hq as Hq; now apply DecimalPos.Unsigned.to_uint_nonnil in Hq. }
  destruct (Hnil z) as [Hz1 Hz2]. destruct (Hnil z') as [Hz1' Hz2'].
  pose proof (NilZero.isi _ Hz1 Hz2) as E. pose proof (NilZero.isi _ Hz1' Hz2') as E'.
  rewrite H in E. rewrite E in E'. now injection E'.
Qed.

(** X20. Two calls at different clock readings never write to the same
    file name: the name tells the reading. *)
Theorem reportFileName_inj (z z' : Z) :
  reportFileName z = reportFileName z' -> z = z'.
Proof.
  unfold reportFileName. intros H.
  apply app_inv_head in H. apply app_inv_tail in H. now apply decZ_inj.
Qed.

Lemma reportFileName_inj_witness : 1562000000000 = 1562000000000.
Proof.
  apply (reportFileName_inj 1562000000000 1562000000000). reflexivity.
Defined.

(** ** The cells of a row, in full *)

(** C5. In the row of a published record the Security cell is the
    aggregate glyph, then for each of CRITICAL, HIGH, MEDIUM and LOW with
    a security failure, in that order, its count and letter in the colour
    of the severity and a blank, then padding and the closing bar; a
    severity without security failure leaves nothing. Counts of 0, 2, 0
    and 1 give the badges 2H and 1L only. This is so whenever the label
    fits its column; when it does not, as for P8, the row is not rendered
    at all. *)
Theorem securityCell_badges (t : Terminal) (pkg : PackageResult)
    (lic : License) (fs : list Failure) (sev : Severity) :
  published pkg = true ->
  license pkg = Some lic ->
  failures pkg = Some fs ->
  severityOf (maxSeverity pkg) = inr sev ->
  (Z.of_nat (length (moduleName pkg)) <= W 0 ->
   exists c0 c1 c2,
     labelCell t (moduleName pkg) = inr c0 /\
     riskCell t sev = inr c1 /\
     licenseCell t lic = inr c2 /\
     moduleRow t pkg
     = inr (c0 ++ c1 ++ c2
            ++ (if (countIn CRITICAL fs + countIn HIGH fs + countIn MEDIUM fs
                 + countIn LOW fs =? 0)%nat
             then chalk t COLORS.green CHECK ++ u " 0"
             else chalk t COLORS.red (u "X") ++ u " ")
            ++ (if (0 <? countIn CRITICAL fs)%nat
                then chalk t COLORS.red (dec (countIn CRITICAL fs) ++ u "C") ++ u " "
                else [])
            ++ (if (0 <? countIn HIGH fs)%nat
                then chalk t COLORS.orange (dec (countIn HIGH fs) ++ u "H") ++ u " "
                else [])
            ++ (if (0 <? countIn MEDIUM fs)%nat
                then chalk t COLORS.yellow (dec (countIn MEDIUM fs) ++ u "M") ++ u " "
                else [])
            ++ (if (0 <? countIn LOW fs)%nat
                then chalk t COLORS.light1 (dec (countIn LOW fs) ++ u "L") ++ u " "
                else [])
            ++ str_repeat (u " ")
                 (11 - 2 * length (List.filter (fun s => (0 <? countIn s fs)%nat)
                                     [CRITICAL; HIGH; MEDIUM; LOW]))
            ++ chalk t COLORS.light1 BOX_V)) /\
  (W 0 < Z.of_nat (length (moduleName pkg)) -> moduleRow t pkg = inl RangeError) /\
  securityCell plain [security HIGH; security LOW; security HIGH]
  = inr (u "X 2H 1L " ++ u "       " ++ BOX_V) /\
  moduleRow t P8 = inl RangeError.
Proof.
  intros Hpub Hlic Hfs Hsev.
  pose proof (moduleRow_published t pkg lic fs sev Hpub Hlic Hfs Hsev) as Hrow.
  split; [|split; [|split; reflexivity]].
  - intros Hfit.
    destruct (Z.leb_spec (Z.of_nat (length (moduleName pkg))) (W 0)) as [_|]; [|lia].
    eexists _, _, _.
    split; [apply (labelCell_fits t _ Hfit)|].
    split; [apply riskCell_ok|].
    split; [apply licenseCell_ok|].
    rewrite Hrow, securityPart_explicit. reflexivity.
  - intros Hlong.
    destruct (Z.leb_spec (Z.of_nat (length (moduleName pkg))) (W 0)) as [|_]; [lia|].
    exact Hrow.
Qed.

Lemma securityCell_badges_witness :
  moduleRow plain P1
  = inr (BOX_V ++ u " P1 @ 1.0.0 " ++ str_repeat (u " ") 30 ++ BOX_V
         ++ u " ||High  " ++ BOX_V ++ u " " ++ CHECK ++ u " MIT"
         ++ str_repeat (u " ") 17 ++ BOX_V ++ u " X 2H 1L "
         ++ str_repeat (u " ") 7 ++ BOX_V) /\
  moduleRow plain P8 = inl RangeError.
Proof.
  destruct (securityCell_badges plain P1 MIT [security HIGH; security LOW; security HIGH]
              HIGH eq_refl eq_refl eq_refl eq_refl) as (Hfit & _ & _ & _).
  destruct (securityCell_badges plain P8 MIT [security HIGH; security LOW; security HIGH]
              HIGH eq_refl eq_refl eq_refl eq_refl) as (_ & Hlong & _ & _).
  split.
  - destruct Hfit as (c0 & c1 & c2 & H0 & H1 & H2 & Hrow); [vm_compute; discriminate|].
    rewrite Hrow. vm_compute in H0, H1, H2.
    injection H0 as <-. injection H1 as <-. injection H2 as <-.
    vm_compute. reflexivity.
  - apply Hlong. vm_compute. reflexivity.
Defined.

(** C6. The row of a record that is not published ends in three blank
    cells of 11, 23 and 15 blanks, each closed by a bar, and is the same
    whatever the record holds as licence, failures and [maxSeverity].
    This is so whenever the label fits its column; when it does not, as
    for P5, the row is not rendered at all. *)
Theorem unpublished_row_blank (t : Terminal) (pkg : PackageResult) :
  published pkg = false ->
  moduleRow t pkg
  = (if Z.of_nat (length (moduleName pkg)) <=? W 0
     then inr (chalk t COLORS.light1 BOX_V ++ u " " ++ interpolate (moduleName pkg)
               ++ u " "
               ++ str_repeat (u " ") (Z.to_nat (W 0) - length (moduleName pkg))
               ++ chalk t COLORS.light1 BOX_V ++ u " "
               ++ str_repeat (u " ") 11 ++ chalk t COLORS.light1 BOX_V
               ++ str_repeat (u " ") 23 ++ chalk t COLORS.light1 BOX_V
               ++ str_repeat (u " ") 15 ++ chalk t COLORS.light1 BOX_V)
     else inl RangeError) /\
  (forall (lic : option License) (fs : option (list Failure)) (sev : Z),
     moduleRow t {| name := name pkg; version := version pkg; published := false;
                    license := lic; failures := fs; maxSeverity := sev |}
     = moduleRow t pkg) /\
  published P5 = false /\
  moduleRow t P5 = inl RangeError.
Proof.
  intros Hpub. split; [|split; [|split; reflexivity]].
  - rewrite (moduleRow_unpublished t pkg Hpub).
    destruct (_ <=? _); [|reflexivity].
    unfold blankCell, bar. now rewrite <- !app_assoc.
  - intros lic fs sev. unfold moduleRow. rewrite Hpub. reflexivity.
Qed.

Lemma unpublished_row_blank_witness :
  moduleRow plain P4
  = inr (BOX_V ++ u " P4 @ 0.3.0 " ++ str_repeat (u " ") 30 ++ BOX_V ++ u " "
         ++ str_repeat (u " ") 11 ++ BOX_V ++ str_repeat (u " ") 23 ++ BOX_V
         ++ str_repeat (u " ") 15 ++ BOX_V).
Proof.
  destruct (unpublished_row_blank plain P4 eq_refl) as (Hrow & _).
  rewrite Hrow. vm_compute. reflexivity.
Defined.
